(** * video-transcriber: a shallow embedding of [transcribe.py]

    The script is a linear pipeline: validate inputs, extract a WAV file with
    ffmpeg, upload it to a speech-recognition endpoint, reshape the JSON
    answer, write the transcript and print it.  This development embeds the
    script function by function and proves the properties its specification
    states about it.

    Conventions of the embedding:
    - Python values that come out of [response.json()] are the inductive
      [pyval]; a [dict] is an association list in insertion order whose keys
      are pairwise distinct, which is what a Python dict is.
    - A Python [float] is an IEEE-754 binary64 number, modelled by the
      standard library's [spec_float] with [prec = 53] and [emax = 1024];
      the arithmetic on floats is [SFdiv]/[SFmul] at that format.
    - A Python [str] is a [string]; a character stands for the code point of
      the same number (code points below 256).
    - An exception is a value of [exn]; code that may raise returns a
      [result].  Code that also prints or touches the file system runs in the
      monad [M] over an explicit [world]. *)

From Stdlib Require Import ZArith QArith Qround Qpower String Ascii List Lia Lqa.
From Stdlib Require Import DecimalString DecimalPos DecimalZ SpecFloat.
From stdpp Require Import base list strings gmap.

Local Open Scope Z_scope.

(** ** Exceptions and the error monad *)

Inductive exn : Type :=
  | AttributeError
  | TypeError
  | KeyError
  | ValueError
  | OverflowError
  | FileNotFoundError
  | OSError
  | JSONDecodeError
  | RequestException
  | RuntimeError (msg : string)
  | Exception (msg : string)
  | SystemExit (code : Z).

Inductive result (A : Type) : Type :=
  | Ok (a : A)
  | Raise (e : exn).
Arguments Ok {A} a.
Arguments Raise {A} e.

#[global] Instance result_ret : MRet result := fun _ a => Ok a.
#[global] Instance result_bind : MBind result := fun _ _ k r =>
  match r with
  | Ok a => k a
  | Raise e => Raise e
  end.

(** ** Python values *)

#[warnings="-register-all"]
Inductive pyval : Type :=
  | PNone
  | PBool (b : bool)
  | PInt (z : Z)
  | PFloat (f : spec_float)
  | PStr (s : string)
  | PList (l : list pyval)
  | PDict (d : list (string * pyval)).

Abbreviation pydict := (list (string * pyval)).

Module Dict.

(** [d.get(k)] on the association list: the entry of key [k], if any. *)
Fixpoint get (d : pydict) (k : string) : option pyval :=
  match d with
  | [] => None
  | (k', v) :: d' => if String.eqb k' k then Some v else get d' k
  end.

(** [k in d]. *)
Definition mem (d : pydict) (k : string) : bool :=
  match get d k with Some _ => true | None => false end.

(** [d[k] = v]: an existing key keeps its position, a new key goes last. *)
Fixpoint set (d : pydict) (k : string) (v : pyval) : pydict :=
  match d with
  | [] => [(k, v)]
  | (k', v') :: d' =>
      if String.eqb k' k then (k', v) :: d' else (k', v') :: set d' k v
  end.

(** [list(d.keys())]. *)
Definition keys (d : pydict) : list string := map fst d.

End Dict.

(** [v.get(k, default)]: only a dict has the method. *)
Definition py_get (v : pyval) (k : string) (default : pyval) : result pyval :=
  match v with
  | PDict d => Ok (match Dict.get d k with Some x => x | None => default end)
  | _ => Raise AttributeError
  end.

(** [v[k]] for a string key [k]: [KeyError] on a dict without the key,
    [TypeError] on every other value of the model (a list or a string wants
    an integer index, the rest is not subscriptable). *)
Definition py_getitem (v : pyval) (k : string) : result pyval :=
  match v with
  | PDict d => match Dict.get d k with Some x => Ok x | None => Raise KeyError end
  | _ => Raise TypeError
  end.

Fixpoint chars (s : string) : list pyval :=
  match s with
  | EmptyString => []
  | String c s' => PStr (String c EmptyString) :: chars s'
  end.

(** [for x in v]: the items a [for] loop sees. *)
Definition py_iter (v : pyval) : result (list pyval) :=
  match v with
  | PList l => Ok l
  | PDict d => Ok (map PStr (Dict.keys d))
  | PStr s => Ok (chars s)
  | _ => Raise TypeError
  end.

(** [len(v)]. *)
Definition py_len (v : pyval) : result Z :=
  match v with
  | PList l => Ok (Z.of_nat (length l))
  | PDict d => Ok (Z.of_nat (length d))
  | PStr s => Ok (Z.of_nat (String.length s))
  | _ => Raise TypeError
  end.

(** ** Strings *)

(** [str.isspace] on one character, for code points below 256:
    TAB..CR, FS..US, space, NEL and NBSP. *)
Definition is_space (c : ascii) : bool :=
  let n := N_of_ascii c in
  ((9 <=? n) && (n <=? 13) || (28 <=? n) && (n <=? 32) || (n =? 133) || (n =? 160))%N.

Fixpoint lstrip (s : string) : string :=
  match s with
  | EmptyString => EmptyString
  | String c s' => if is_space c then lstrip s' else s
  end.

Fixpoint rstrip (s : string) : string :=
  match s with
  | EmptyString => EmptyString
  | String c s' =>
      match rstrip s' with
      | EmptyString => if is_space c then EmptyString else String c EmptyString
      | r => String c r
      end
  end.

(** [s.strip()] *)
Definition strip (s : string) : string := rstrip (lstrip s).

(** [v.strip()]: only a string has the method. *)
Definition py_strip (v : pyval) : result pyval :=
  match v with
  | PStr s => Ok (PStr (strip s))
  | _ => Raise AttributeError
  end.

(** Stripping for any type of characters and any test: the longest run of
    characters that pass the test is dropped at each end. *)
Fixpoint ltrim {A} (P : A -> bool) (l : list A) : list A :=
  match l with
  | [] => []
  | x :: l' => if P x then ltrim P l' else l
  end.

Fixpoint rtrim {A} (P : A -> bool) (l : list A) : list A :=
  match l with
  | [] => []
  | x :: l' =>
      match rtrim P l' with
      | [] => if P x then [] else [x]
      | r => x :: r
      end
  end.

Definition trim {A} (P : A -> bool) (l : list A) : list A := rtrim P (ltrim P l).

(** [str.isspace] on any code point: the characters Unicode classes as
    whitespace.  Below 256 it is [is_space]. *)
Definition is_space_code (n : N) : bool :=
  ((9 <=? n) && (n <=? 13) || (28 <=? n) && (n <=? 32) || (n =? 133) || (n =? 160) ||
   (n =? 5760) || (8192 <=? n) && (n <=? 8202) || (n =? 8232) || (n =? 8233) ||
   (n =? 8239) || (n =? 8287) || (n =? 12288))%N.

(** [s.strip()] on a string of any code points, given as their sequence. *)
Definition strip_codes (l : list N) : list N := trim is_space_code l.

(** The code points of a string of the model. *)
Definition codes (s : string) : list N := map N_of_ascii (list_ascii_of_string s).

(** ** Numbers *)

Abbreviation b64_div := (SFdiv 53 1024).
Abbreviation b64_mul := (SFmul 53 1024).

(** [float(z)] of an integer, rounded to nearest even. *)
Definition float_of_int (z : Z) : spec_float := binary_normalize 53 1024 z 0 false.

(** [int(f)] of a float: truncation toward zero; infinities and NaN raise. *)
Definition int_of_float (f : spec_float) : result Z :=
  match f with
  | S754_zero _ => Ok 0
  | S754_infinity _ => Raise OverflowError
  | S754_nan => Raise ValueError
  | S754_finite s m e => Ok (cond_Zopp s (Z.shiftl (Zpos m) e))
  end.

Definition is_digit (c : ascii) : bool :=
  let n := N_of_ascii c in ((48 <=? n) && (n <=? 57))%N.

Definition digit_val (c : ascii) : Z := Z.of_N (N_of_ascii c) - 48.

(** The digits of an integer literal given to [int(str)]: decimal digits,
    with single underscores allowed between two digits. *)
Fixpoint parse_digits (acc : Z) (after_digit : bool) (s : string) : option Z :=
  match s with
  | EmptyString => if after_digit then Some acc else None
  | String c s' =>
      if is_digit c then parse_digits (10 * acc + digit_val c) true s'
      else if Ascii.eqb c "_" && after_digit then parse_digits acc false s'
      else None
  end.

(** The whitespace [int] skips at both ends of a literal.  [int] turns the
    whitespace outside ASCII (below 256: NEL and NBSP) into spaces and then
    skips C's whitespace, TAB..CR and the space.  FS..US are ASCII: they
    stay as they are and make the literal invalid, although [str.strip]
    strips them. *)
Definition is_int_space (c : ascii) : bool :=
  let n := N_of_ascii c in
  ((9 <=? n) && (n <=? 13) || (n =? 32) || (n =? 133) || (n =? 160))%N.

Definition int_strip (s : string) : string :=
  string_of_list_ascii (trim is_int_space (list_ascii_of_string s)).

(** The number of digits of a literal.  CPython refuses to convert a
    literal of more than [sys.int_max_str_digits] digits, 4300 unless the
    interpreter is configured otherwise; the sign and the underscores do
    not count. *)
Fixpoint count_digits (s : string) : Z :=
  match s with
  | EmptyString => 0
  | String c s' => (if is_digit c then 1 else 0) + count_digits s'
  end.

Definition int_max_str_digits : Z := 4300.

(** [int(s)] of a string in base 10. *)
Definition int_of_str (s : string) : result Z :=
  let literal := int_strip s in
  let parsed :=
    match literal with
    | String "+" r => parse_digits 0 false r
    | String "-" r => Z.opp <$> parse_digits 0 false r
    | r => parse_digits 0 false r
    end in
  match parsed with
  | Some z => if int_max_str_digits <? count_digits literal then Raise ValueError else Ok z
  | None => Raise ValueError
  end.

(** [int(v)] *)
Definition py_int (v : pyval) : result Z :=
  match v with
  | PInt z => Ok z
  | PBool b => Ok (if b then 1 else 0)
  | PFloat f => int_of_float f
  | PStr s => int_of_str s
  | PNone | PList _ | PDict _ => Raise TypeError
  end.

(** [divmod(a, b)] for [b > 0]: floor division and its remainder. *)
Definition divmod (a b : Z) : Z * Z := (a / b, a mod b).

(** ** Formatting *)

(** [str(z)], also what [f"{z}"] renders for an integer. *)
Definition str_of_int (z : Z) : string := NilZero.string_of_int (Z.to_int z).

Fixpoint zeros (n : nat) : string :=
  match n with
  | O => EmptyString
  | S n' => String "0" (zeros n')
  end.

(** [f"{z:02d}"]: at least two characters, the sign first and zeros between
    the sign and the digits. *)
Definition format_02d (z : Z) : string :=
  let sign := if z <? 0 then "-" else EmptyString in
  let digits := str_of_int (Z.abs z) in
  sign +:+ zeros (2 - String.length sign - String.length digits) +:+ digits.

(** ** [format_timestamp] *)

Definition format_timestamp (seconds : pyval) : result string :=
  total_seconds ← py_int seconds;
  let '(hours, remainder) := divmod total_seconds 3600 in
  let '(minutes, secs) := divmod remainder 60 in
  if 0 <? hours
  then Ok (str_of_int hours +:+ "h" +:+ format_02d minutes +:+ "m" +:+ format_02d secs +:+ "s")
  else Ok (str_of_int minutes +:+ "m" +:+ format_02d secs +:+ "s").

(** [f"{x:.1f}"] of a float: the exact binary value rounded to one decimal,
    ties to even. *)
Definition round_half_even (num den : Z) : Z :=
  let q := num / den in
  let r2 := 2 * (num mod den) in
  if r2 <? den then q
  else if den <? r2 then q + 1
  else if Z.even q then q else q + 1.

Definition format_1f (x : spec_float) : string :=
  match x with
  | S754_zero s => (if s then "-" else EmptyString) +:+ "0.0"
  | S754_infinity s => (if s then "-" else EmptyString) +:+ "inf"
  | S754_nan => "nan"
  | S754_finite s m e =>
      let tenths :=
        match e with
        | Zneg p => round_half_even (10 * Zpos m) (2 ^ Zpos p)
        | _ => 10 * Zpos m * 2 ^ e
        end in
      (if s then "-" else EmptyString) +:+ str_of_int (tenths / 10) +:+ "." +:+ str_of_int (tenths mod 10)
  end.

(** ** The request timeout of [transcribe] *)

(** [file_size_mb = st_size / (1024 * 1024)]: true division of two integers,
    which is the division of their floats (the divisor is a power of two, so
    converting the size first rounds the same way). *)
Definition file_size_mb (st_size : Z) : spec_float :=
  b64_div (float_of_int st_size) (float_of_int (1024 * 1024)).

(** [timeout = max(120, int(file_size_mb / 10 * 60) + 60)] *)
Definition request_timeout (st_size : Z) : result Z :=
  t ← int_of_float (b64_mul (b64_div (file_size_mb st_size) (float_of_int 10)) (float_of_int 60));
  Ok (Z.max 120 (t + 60)).

(** ** The response normalizer of [transcribe] *)

Fixpoint mapM {A B} (f : A -> result B) (l : list A) : result (list B) :=
  match l with
  | [] => Ok []
  | x :: l' => y ← f x; ys ← mapM f l'; Ok (y :: ys)
  end.

(** One entry of the list comprehension over [segment["words"]]. *)
Definition normalize_word (w : pyval) : result pyval :=
  word ← py_get w "word" (PStr EmptyString);
  start ← py_get w "start" (PInt 0);
  end_ ← py_get w "end" (PInt 0);
  Ok (PDict [("word", word); ("start", start); ("end", end_)]).

(** The body of the loop over the response segments, up to the [append]. *)
Definition normalize_segment (segment : pyval) : result pyval :=
  start ← py_get segment "start" (PInt 0);
  end_ ← py_get segment "end" (PInt 0);
  text ← py_get segment "text" (PStr EmptyString) ≫= py_strip;
  let seg_data := [("start", start); ("end", end_); ("text", text)] in
  match segment with
  | PDict d =>
      if Dict.mem d "words" then
        items ← py_getitem segment "words" ≫= py_iter;
        words ← mapM normalize_word items;
        Ok (PDict (Dict.set seg_data "words" (PList words)))
      else Ok (PDict seg_data)
  | _ => Raise AttributeError
  end.

(** [for segment in ...: ...; transcript["segments"].append(seg_data)],
    with the list under construction as accumulator. *)
Fixpoint segments_loop (items : list pyval) (segments : list pyval) : result (list pyval) :=
  match items with
  | [] => Ok segments
  | segment :: rest =>
      seg_data ← normalize_segment segment;
      segments_loop rest (segments ++ [seg_data])
  end.

(** [result = response.json()] to the finished [transcript] dict. *)
Definition normalize (audio_name : string) (response : pyval) : result pyval :=
  language ← py_get response "language" (PStr "en");
  duration ← py_get response "duration" (PInt 0);
  items ← py_get response "segments" (PList []) ≫= py_iter;
  segments ← segments_loop items [];
  Ok (PDict [("audio_file", PStr audio_name); ("language", language);
             ("duration", duration); ("segments", PList segments)]).

(** ** The world: file system and console *)

(** A path is the list of its components below the root. *)
Abbreviation path := (list string).

(** What a path holds: a directory, a file of some size (the video, the WAV
    file), or the JSON document [json.dump] wrote. *)
Inductive node : Type :=
  | Dir
  | File (size : Z)
  | Document (doc : pyval).

(** Each entry of [stdout] and [stderr] is the argument of one [print] call;
    the console ends it with a newline. *)
Record world : Type := World {
  fs : gmap path node;
  stdout : list string;
  stderr : list string;
}.

Definition M (A : Type) : Type := world -> result A * world.

#[global] Instance M_ret : MRet M := fun _ a w => (Ok a, w).
#[global] Instance M_bind : MBind M := fun _ _ k m w =>
  match m w with
  | (Ok a, w') => k a w'
  | (Raise e, w') => (Raise e, w')
  end.

Definition raise {A} (e : exn) : M A := fun w => (Raise e, w).
Definition lift {A} (r : result A) : M A := fun w => (r, w).

(** [try: body finally: final] *)
Definition try_finally {A} (body : M A) (final : M unit) : M A := fun w =>
  let '(r, w1) := body w in
  match final w1 with
  | (Ok _, w2) => (r, w2)
  | (Raise e, w2) => (Raise e, w2)
  end.

Fixpoint for_each {A} (l : list A) (body : A -> M unit) : M unit :=
  match l with
  | [] => mret tt
  | x :: l' => body x;; for_each l' body
  end.

Definition print (s : string) : M unit := fun w =>
  (Ok tt, World (fs w) (stdout w ++ [s]) (stderr w)).

Definition eprint (s : string) : M unit := fun w =>
  (Ok tt, World (fs w) (stdout w) (stderr w ++ [s])).

Definition set_fs (f : gmap path node -> gmap path node) : M unit := fun w =>
  (Ok tt, World (f (fs w)) (stdout w) (stderr w)).

Module Path.

(** [p.name] *)
Definition name (p : path) : string := List.last p EmptyString.

(** [p.parent] *)
Definition parent (p : path) : path := removelast p.

(** [p / name] *)
Definition join (p : path) (name : string) : path := p ++ [name].

(** Index of the last dot of [s], counted from [i] at the head of [s]. *)
Fixpoint rfind_dot (s : string) (i : nat) : option nat :=
  match s with
  | EmptyString => None
  | String c s' =>
      match rfind_dot s' (S i) with
      | Some j => Some j
      | None => if Ascii.eqb c "." then Some i else None
      end
  end.

(** [p.stem] of a file name: the name without its last suffix; a leading
    or a trailing dot does not start a suffix. *)
Definition stem_of (name : string) : string :=
  match rfind_dot name 0 with
  | Some i =>
      if ((0 <? i) && (i <? String.length name - 1))%nat
      then String.substring 0 i name else name
  | None => name
  end.

Definition stem (p : path) : string := stem_of (name p).

(** [p.exists()] *)
Definition exists_ (p : path) : M bool := fun w =>
  (Ok (bool_decide (is_Some (fs w !! p))), w).

(** [p.stat().st_size]; the size a directory or a document reports is not
    modelled. *)
Definition stat_size (p : path) : M Z := fun w =>
  match fs w !! p with
  | Some (File size) => (Ok size, w)
  | Some _ => (Ok 0, w)
  | None => (Raise FileNotFoundError, w)
  end.

(** [q] is an entry of the directory [d]. *)
Definition child_of (d q : path) : Prop := q ≠ [] ∧ parent q = d.

#[global] Instance child_of_dec (d q : path) : Decision (child_of d q) :=
and_dec (not_dec (list_eq_dec q [])) (list_eq_dec (parent q) d).

(** [p.unlink()] *)
Definition unlink (p : path) : M unit := fun w =>
  match fs w !! p with
  | Some Dir => (Raise OSError, w)
  | Some _ => set_fs (delete p) w
  | None => (Raise FileNotFoundError, w)
  end.

(** [p.rmdir()]: the directory has to be empty. *)
Definition rmdir (p : path) : M unit := fun w =>
  match fs w !! p with
  | Some Dir =>
      if decide (map_Forall (fun q _ => ¬ child_of p q) (fs w))
      then set_fs (delete p) w
      else (Raise OSError, w)
  | Some _ => (Raise OSError, w)
  | None => (Raise FileNotFoundError, w)
  end.

End Path.

(** ** What the script does not control *)

(** One run of the transcoder: its exit status, its diagnostics, and the size
    of the output file it leaves behind, if it leaves one. *)
Record ffmpeg_run : Type := FfmpegRun {
  returncode : Z;
  ffmpeg_stderr : string;
  written : option Z;
}.

(** The request [requests.post] sends. *)
Record request : Type := Request {
  req_url : string;
  req_headers : list (string * string);
  req_file : string * path * string;
  req_data : list (string * string);
  req_timeout : Z;
}.

(** What [requests.post] gives back: an exception (connection error,
    timeout), or a response with its status, its body and the value
    [response.json()] parses from it, if the body is JSON. *)
Inductive http_outcome : Type :=
  | HttpRaises (e : exn)
  | HttpResponse (status_code : Z) (text : string) (json : option pyval).

Record environment : Type := Environment {
  env_api_key : option string;
  env_ffmpeg_version_ok : bool;
  env_mkdtemp : path;
  env_ffmpeg : ffmpeg_run;
  env_http_post : request -> http_outcome;
  env_open_output : option exn;
}.

(** The parsed command line; the paths are resolved. *)
Record arguments : Type := Arguments {
  arg_video : path;
  arg_output : option path;
  arg_keep_audio : bool;
}.

Definition FIREWORKS_WHISPER_URL : string :=
  "https://audio-prod.api.fireworks.ai/v1/audio/transcriptions".
Definition FIREWORKS_MODEL : string := "whisper-v3".

Definition nl : string := String (ascii_of_nat 10) EmptyString.
Definition dquote : string := String (ascii_of_nat 34) EmptyString.

Fixpoint rule (n : nat) : string :=
  match n with
  | O => EmptyString
  | S n' => String "=" (rule n')
  end.

(** ** The stages of the pipeline *)

Section Pipeline.

(** [str(v)] of a float, a list or a dict is Python's own rendering. *)
Variable py_repr : pyval -> string.
Variable E : environment.

(** What [f"{v}"] renders. *)
Definition py_format (v : pyval) : string :=
  match v with
  | PStr s => s
  | PNone => "None"
  | PBool true => "True"
  | PBool false => "False"
  | PInt z => str_of_int z
  | _ => py_repr v
  end.

Definition check_ffmpeg : M unit :=
  if env_ffmpeg_version_ok E then mret tt
  else
    eprint "Error: ffmpeg not found.";;
    eprint "Install it:";;
    eprint "  macOS:   brew install ffmpeg";;
    eprint "  Ubuntu:  sudo apt install ffmpeg";;
    eprint "  Windows: choco install ffmpeg";;
    raise (SystemExit 1).

(** [subprocess.run(cmd, ...)] of the transcoder, writing to [output_path]. *)
Definition run_ffmpeg (output_path : path) : M ffmpeg_run :=
  match written (env_ffmpeg E) with
  | Some size => set_fs (insert output_path (File size))
  | None => mret tt
  end;;
  mret (env_ffmpeg E).

Definition extract_audio (video_path output_path : path) : M path :=
  print ("Extracting audio from " +:+ Path.name video_path +:+ "...");;
  run ← run_ffmpeg output_path;
  if negb (returncode run =? 0)
  then raise (RuntimeError ("FFmpeg failed:" +:+ nl +:+ ffmpeg_stderr run))
  else
    size ← Path.stat_size output_path;
    let size_mb := file_size_mb size in
    print ("Audio extracted: " +:+ Path.name output_path +:+ " (" +:+ format_1f size_mb +:+ " MB)");;
    mret output_path.

Definition transcribe (audio_path : path) (api_key : string) : M pyval :=
  print ("Transcribing " +:+ Path.name audio_path +:+ " via Fireworks AI Whisper-v3...");;
  print "(This may take several minutes for long recordings.)";;
  size ← Path.stat_size audio_path;
  timeout ← lift (request_timeout size);
  let req :=
    Request FIREWORKS_WHISPER_URL
      [("Authorization", "Bearer " +:+ api_key)]
      (Path.name audio_path, audio_path, "audio/wav")
      [("model", FIREWORKS_MODEL); ("temperature", "0");
       ("vad_model", "silero"); ("response_format", "verbose_json")]
      timeout in
  match env_http_post E req with
  | HttpRaises e => raise e
  | HttpResponse status_code text json =>
      if negb (status_code =? 200)
      then raise (Exception ("Fireworks API error " +:+ str_of_int status_code +:+ ": " +:+ text))
      else
        response ← match json with Some v => mret v | None => raise JSONDecodeError end;
        transcript ← lift (normalize (Path.name audio_path) response);
        n ← lift (py_getitem transcript "segments" ≫= py_len);
        d ← lift (py_getitem transcript "duration" ≫= format_timestamp);
        print ("Transcription complete: " +:+ str_of_int n +:+ " segments, " +:+ d +:+ " duration");;
        mret transcript
  end.

Definition print_segment (segment : pyval) : M unit :=
  start ← lift (py_getitem segment "start" ≫= format_timestamp);
  end_ ← lift (py_getitem segment "end" ≫= format_timestamp);
  text ← lift (py_getitem segment "text");
  print ("[" +:+ start +:+ " -> " +:+ end_ +:+ "]  " +:+ py_format text).

Definition print_transcript (transcript : pyval) : M unit :=
  duration ← lift (py_get transcript "duration" (PInt 0));
  lang ← lift (py_get transcript "language" (PStr "unknown"));
  print (nl +:+ rule 60);;
  print "TRANSCRIPT";;
  d ← lift (format_timestamp duration);
  print ("Duration: " +:+ d +:+ "  |  Language: " +:+ py_format lang);;
  n ← lift (py_getitem transcript "segments" ≫= py_len);
  print ("Segments: " +:+ str_of_int n);;
  print (rule 60 +:+ nl);;
  segments ← lift (py_getitem transcript "segments" ≫= py_iter);
  for_each segments print_segment;;
  print (nl +:+ rule 60).

(** [with open(output_path, "w") as f: json.dump(transcript, f, indent=2)] *)
Definition save_json (output_path : path) (transcript : pyval) : M unit :=
  match env_open_output E with
  | Some e => raise e
  | None => set_fs (insert output_path (Document transcript))
  end.

Definition render_path (p : path) : string :=
  foldr (fun c s => "/" +:+ c +:+ s) EmptyString p.

Definition main (args : arguments) : M unit :=
  (* Validate video file *)
  let video_path := arg_video args in
  found ← Path.exists_ video_path;
  (if negb found
   then eprint ("Error: Video file not found: " +:+ render_path video_path);;
        raise (SystemExit 1)
   else mret tt);;
  (* Validate API key *)
  api_key ←
    match env_api_key E with
    | Some (String _ _ as key) => mret key
    | _ =>
        eprint "Error: FIREWORKS_API_KEY environment variable not set.";;
        eprint "Get a key at https://fireworks.ai and run:";;
        eprint ("  export FIREWORKS_API_KEY=" +:+ dquote +:+ "your-key-here" +:+ dquote);;
        raise (SystemExit 1)
    end;
  (* Check ffmpeg *)
  check_ffmpeg;;
  (* Determine output path *)
  let output_path :=
    match arg_output args with
    | Some p => p
    | None => Path.join (Path.parent video_path) (Path.stem video_path +:+ "_transcript.json")
    end in
  (* Extract audio *)
  audio_path ←
    (if arg_keep_audio args
     then
       let audio_path := Path.join (Path.parent video_path) (Path.stem video_path +:+ ".wav") in
       extract_audio video_path audio_path;;
       mret audio_path
     else
       let tmp_dir := env_mkdtemp E in
       set_fs (insert tmp_dir Dir);;
       let audio_path := Path.join tmp_dir (Path.stem video_path +:+ ".wav") in
       extract_audio video_path audio_path;;
       mret audio_path);
  try_finally
    (transcript ← transcribe audio_path api_key;
     save_json output_path transcript;;
     print (nl +:+ "Transcript saved to: " +:+ render_path output_path);;
     print_transcript transcript)
    (* Clean up temp audio if not keeping it *)
    (found ← Path.exists_ audio_path;
     if negb (arg_keep_audio args) && found
     then Path.unlink audio_path;; Path.rmdir (Path.parent audio_path)
     else mret tt).

End Pipeline.

(** ** Vocabulary of the specification *)

(** The rational number a finite float stands for: [m * 2^e], signed. *)
Definition float_value (f : spec_float) : Q :=
  match f with
  | S754_finite s m e =>
      match e with
      | Zneg p => Qmake (cond_Zopp s (Zpos m)) (2 ^ p)
      | _ => inject_Z (cond_Zopp s (Zpos m) * 2 ^ e)
      end
  | _ => 0%Q
  end.

(** The number of seconds an argument of [format_timestamp] stands for, when
    it is a number: an integer or a finite float. *)
Definition seconds_of (v : pyval) : option Q :=
  match v with
  | PInt z => Some (inject_Z z)
  | PFloat (S754_zero _) => Some 0%Q
  | PFloat (S754_finite s m e) => Some (float_value (S754_finite s m e))
  | _ => None
  end.

Definition digit (d : Z) : ascii := ascii_of_N (Z.to_N (48 + d)).

(** A number below 100 in exactly two decimal digits. *)
Definition two_digits (x : Z) : string :=
  String (digit (x / 10)) (String (digit (x mod 10)) EmptyString).

(** [c in s] for a character [c]. *)
Fixpoint contains (c : ascii) (s : string) : bool :=
  match s with
  | EmptyString => false
  | String c' s' => Ascii.eqb c c' || contains c s'
  end.

Fixpoint all_chars (P : ascii -> bool) (s : string) : bool :=
  match s with
  | EmptyString => true
  | String c s' => P c && all_chars P s'
  end.

(** A string that begins, or ends, with a whitespace character. *)
Definition head_space (s : string) : bool :=
  match s with
  | String c _ => is_space c
  | EmptyString => false
  end.

Fixpoint last_space (s : string) : bool :=
  match s with
  | EmptyString => false
  | String c EmptyString => is_space c
  | String _ s' => last_space s'
  end.

Definition is_dict (v : pyval) : bool :=
  match v with PDict _ => true | _ => false end.

(** The shape of a response whose optional fields may all be absent: a field
    that is present has the type the service documents.  [language],
    [duration], [start] and [end] are copied as they are, whatever they hold;
    [text] is a string, [words] a list of objects, [segments] a list of
    objects. *)
Definition wf_segment (v : pyval) : bool :=
  match v with
  | PDict d =>
      match Dict.get d "text" with
      | Some (PStr _) | None => true
      | Some _ => false
      end &&
      match Dict.get d "words" with
      | Some (PList ws) => forallb is_dict ws
      | Some _ => false
      | None => true
      end
  | _ => false
  end.

Definition wf_response (v : pyval) : bool :=
  match v with
  | PDict d =>
      match Dict.get d "segments" with
      | Some (PList segs) => forallb wf_segment segs
      | Some _ => false
      | None => true
      end
  | _ => false
  end.

(** The double nearest to 1.9, which is what the literal [1.9] denotes. *)
Definition one_point_nine : spec_float := S754_finite false 8556839292003942 (-52).

(** The segments the loop of [transcribe] iterates over. *)
Definition response_segments (response : pyval) : result (list pyval) :=
  py_get response "segments" (PList []) ≫= py_iter.

(** The three entries every normalized segment starts with. *)
Definition segment_base (d : pydict) (s : string) : pydict :=
  [("start", default (PInt 0) (Dict.get d "start"));
   ("end", default (PInt 0) (Dict.get d "end"));
   ("text", PStr (strip s))].

(** Python's whitespace, one code point after the other: the control
    characters TAB..CR and FS..US, the space, NEL, NBSP, and the spaces and
    separators of Unicode above 255. *)
Definition unicode_whitespace : list N :=
  [9; 10; 11; 12; 13; 28; 29; 30; 31; 32; 133; 160; 5760;
   8192; 8193; 8194; 8195; 8196; 8197; 8198; 8199; 8200; 8201; 8202;
   8232; 8233; 8239; 8287; 12288]%N.

Definition whitespace_code (n : N) : bool := existsb (N.eqb n) unicode_whitespace.

Definition whitespace (c : ascii) : bool := whitespace_code (N_of_ascii c).

Definition first_char (s : string) : option ascii :=
  match s with
  | String c _ => Some c
  | EmptyString => None
  end.

Fixpoint last_char (s : string) : option ascii :=
  match s with
  | EmptyString => None
  | String c EmptyString => Some c
  | String _ s' => last_char s'
  end.

(** [t] is [s] without the whitespace around it: [s] is [t] between two
    runs of whitespace, and [t] neither begins nor ends with whitespace. *)
Definition trimmed (s t : string) : Prop :=
  (exists a b : string,
     s = a +:+ t +:+ b /\
     all_chars whitespace a = true /\ all_chars whitespace b = true) /\
  (forall c, first_char t = Some c -> whitespace c = false) /\
  (forall c, last_char t = Some c -> whitespace c = false).

(** The same for a string of any code points. *)
Definition trimmed_codes (l t : list N) : Prop :=
  (exists a b : list N,
     l = a ++ t ++ b /\
     forallb whitespace_code a = true /\ forallb whitespace_code b = true) /\
  (forall n, head t = Some n -> whitespace_code n = false) /\
  (forall n, last t = Some n -> whitespace_code n = false).

(** One normalized segment next to the response segment it comes from:
    [start] and [end] are copied, or 0 when absent; [text] is the text of
    the response segment, or the empty string when absent, without the
    whitespace around it. *)
Definition segment_defaults (segment out : pyval) : Prop :=
  exists (d o : pydict) (s t : string),
    segment = PDict d /\ out = PDict o /\
    Dict.get o "start" = Some (default (PInt 0) (Dict.get d "start")) /\
    Dict.get o "end" = Some (default (PInt 0) (Dict.get d "end")) /\
    default (PStr EmptyString) (Dict.get d "text") = PStr s /\
    Dict.get o "text" = Some (PStr t) /\
    trimmed s t.

(** The line [print_transcript] prints for one segment. *)
Definition segment_line (py_repr : pyval -> string) (segment : pyval) (line : string) : Prop :=
  exists (start end_ : string) (text : pyval),
    py_getitem segment "start" ≫= format_timestamp = Ok start /\
    py_getitem segment "end" ≫= format_timestamp = Ok end_ /\
    py_getitem segment "text" = Ok text /\
    line = "[" +:+ start +:+ " -> " +:+ end_ +:+ "]  " +:+ py_format py_repr text.

(** The stub response of the end-to-end scenario: two segments covering
    [0, 15] and [15, 30] seconds. *)
Definition two_segments : list pyval :=
  [PDict [("start", PFloat (float_of_int 0)); ("end", PFloat (float_of_int 15));
          ("text", PStr " hello")];
   PDict [("start", PFloat (float_of_int 15)); ("end", PFloat (float_of_int 30));
          ("text", PStr " world")]].

Definition two_segment_response : pyval :=
  PDict [("language", PStr "en");
         ("duration", PFloat (float_of_int 30));
         ("segments", PList two_segments)].

(** What the normalizer makes of [two_segment_response] for the audio file
    [talk.wav]. *)
Definition two_segment_transcript : pyval :=
  PDict [("audio_file", PStr "talk.wav");
         ("language", PStr "en");
         ("duration", PFloat (float_of_int 30));
         ("segments",
          PList [PDict [("start", PFloat (float_of_int 0)); ("end", PFloat (float_of_int 15));
                        ("text", PStr "hello")];
                 PDict [("start", PFloat (float_of_int 15)); ("end", PFloat (float_of_int 30));
                        ("text", PStr "world")]])].

(** A response segment with word timings and no [end], and its normal form. *)
Definition segment_with_words : pyval :=
  PDict [("start", PFloat (float_of_int 2)); ("text", PStr "  hi there ");
         ("words", PList [PDict [("word", PStr "hi"); ("start", PFloat (float_of_int 2))];
                          PDict [("word", PStr " there")]])].

Definition normalized_with_words : pyval :=
  PDict [("start", PFloat (float_of_int 2)); ("end", PInt 0); ("text", PStr "hi there");
         ("words",
          PList [PDict [("word", PStr "hi"); ("start", PFloat (float_of_int 2)); ("end", PInt 0)];
                 PDict [("word", PStr " there"); ("start", PInt 0); ("end", PInt 0)]])].

(** A response that has nothing but two segments: one whose text has
    whitespace around it, and an empty one. *)
Definition padded_response : pyval :=
  PDict [("segments", PList [segment_with_words; PDict []])].

Definition empty_world : world := World ∅ [] [].

(** A computation that leaves the file system as it found it. *)
Definition preserves_fs {A} (m : M A) : Prop := forall w, fs (m w).2 = fs w.

(** The run of the failing scenario: no [--keep-audio], and a transcoder that
    exits with status 1 without writing its output. *)
Definition video_talk : path := ["home"; "user"; "talk.mp4"].

Definition tmp_talk : path := ["tmp"; "tmpk3v9x2aq"].

Definition failing_transcode : environment :=
  Environment (Some "secret") true tmp_talk
    (FfmpegRun 1 "talk.mp4: Invalid data found when processing input" None)
    (fun _ => HttpRaises RequestException) None.

(** The end-to-end scenario: a transcoder that writes 30 seconds of audio and
    a service that answers [two_segment_response]. *)
Definition succeeding_run : environment :=
  Environment (Some "secret") true tmp_talk
    (FfmpegRun 0 EmptyString (Some 960044))
    (fun _ => HttpResponse 200 EmptyString (Some two_segment_response)) None.

Definition world_with_video : world :=
  World {[ ["home"] := Dir; ["home"; "user"] := Dir; video_talk := File 1000000;
           ["tmp"] := Dir ]} [] [].

(** The output path [main] settles on. *)
Definition output_path_of (args : arguments) : path :=
  match arg_output args with
  | Some p => p
  | None =>
      Path.join (Path.parent (arg_video args)) (Path.stem (arg_video args) +:+ "_transcript.json")
  end.

(** The WAV file of a run without [--keep-audio]. *)
Definition temp_audio_path (E : environment) (args : arguments) : path :=
  Path.join (env_mkdtemp E) (Path.stem (arg_video args) +:+ ".wav").

(** The preconditions [main] checks before it does any work. *)
Definition preconditions_hold (E : environment) (args : arguments) (w : world) : Prop :=
  is_Some (fs w !! arg_video args) /\
  (exists c key, env_api_key E = Some (String c key)) /\
  env_ffmpeg_version_ok E = true.

(** The formula of the specification, over the rationals:
    [max(120, file_size_MB / 10 * 60 + 60)]. *)
Definition claimed_timeout (st_size : Z) : Q :=
  let t := (inject_Z st_size / inject_Z (1024 * 1024) / 10 * 60 + 60)%Q in
  if Qle_bool 120 t then t else 120%Q.

(** ** Vocabulary for the rest of the pipeline *)

(** The stages of [main] after the checks: the extraction, the body of the
    [try] block and the [finally] block. *)
Definition extract_stage (E : environment) (args : arguments) : M path :=
  if arg_keep_audio args
  then
    let audio_path :=
      Path.join (Path.parent (arg_video args)) (Path.stem (arg_video args) +:+ ".wav") in
    extract_audio E (arg_video args) audio_path;;
    mret audio_path
  else
    let tmp_dir := env_mkdtemp E in
    set_fs (insert tmp_dir Dir);;
    let audio_path := Path.join tmp_dir (Path.stem (arg_video args) +:+ ".wav") in
    extract_audio E (arg_video args) audio_path;;
    mret audio_path.

Definition try_block (py_repr : pyval -> string) (E : environment)
    (audio_path : path) (api_key : string) (output_path : path) : M unit :=
  transcript ← transcribe E audio_path api_key;
  save_json E output_path transcript;;
  print (nl +:+ "Transcript saved to: " +:+ render_path output_path);;
  print_transcript py_repr transcript.

Definition finally_block (keep_audio : bool) (audio_path : path) : M unit :=
  found ← Path.exists_ audio_path;
  if negb keep_audio && found
  then Path.unlink audio_path;; Path.rmdir (Path.parent audio_path)
  else mret tt.

(** The WAV file of a run with [--keep-audio], beside the video. *)
Definition kept_audio_path (args : arguments) : path :=
  Path.join (Path.parent (arg_video args)) (Path.stem (arg_video args) +:+ ".wav").

(** The WAV file of a run. *)
Definition audio_path_of (E : environment) (args : arguments) : path :=
  if arg_keep_audio args then kept_audio_path args else temp_audio_path E args.

(** The paths a run may write to or remove. *)
Definition footprint (E : environment) (args : arguments) : list path :=
  (if arg_keep_audio args then [] else [env_mkdtemp E]) ++
  [audio_path_of E args; output_path_of args].

(** A computation that leaves every path outside [S] as it found it. *)
Definition touches_only {A} (S : list path) (m : M A) : Prop :=
  forall w q, q ∉ S -> fs (m w).2 !! q = fs w !! q.




(** The service answers the one request [transcribe] sends for this audio
    file and this key (endpoint, bearer header, file part, form fields, a
    timeout of at least 120 seconds) with [outcome]. *)
Definition service_answers (E : environment) (audio_path : path) (api_key : string)
    (outcome : http_outcome) : Prop :=
  forall req : request,
    req_url req = FIREWORKS_WHISPER_URL ->
    req_headers req = [("Authorization", "Bearer " +:+ api_key)] ->
    req_file req = (Path.name audio_path, audio_path, "audio/wav") ->
    req_data req = [("model", FIREWORKS_MODEL); ("temperature", "0");
                    ("vad_model", "silero"); ("response_format", "verbose_json")] ->
    120 <= req_timeout req ->
    env_http_post E req = outcome.

(** The ways the service, or its answer, makes [transcribe] fail for the
    audio file named [audio_name], each with the exception it raises: the
    request itself fails; the status is not 200; the body is not JSON; the
    normalizer rejects the response; the [duration] of the response is not a
    number the completion message can render. *)
Inductive upstream_failure (audio_name : string) : http_outcome -> exn -> Prop :=
  | request_raises (e : exn) :
      upstream_failure audio_name (HttpRaises e) e
  | status_not_200 (status : Z) (text : string) (json : option pyval) :
      status <> 200 ->
      upstream_failure audio_name (HttpResponse status text json)
        (Exception ("Fireworks API error " +:+ str_of_int status +:+ ": " +:+ text))
  | body_not_json (text : string) :
      upstream_failure audio_name (HttpResponse 200 text None) JSONDecodeError
  | response_rejected (text : string) (v : pyval) (e : exn) :
      normalize audio_name v = Raise e ->
      upstream_failure audio_name (HttpResponse 200 text (Some v)) e
  | duration_not_rendered (text : string) (v t : pyval) (e : exn) :
      normalize audio_name v = Ok t ->
      py_getitem t "duration" ≫= format_timestamp = Raise e ->
      upstream_failure audio_name (HttpResponse 200 text (Some v)) e.

(** A computation that only prints: it leaves the file system and the
    standard error as it found them and appends to the standard output. *)
Definition console_only {A} (m : M A) : Prop :=
  forall w,
    fs (m w).2 = fs w /\ stderr (m w).2 = stderr w /\
    exists lines, stdout (m w).2 = stdout w ++ lines.

(** A run whose transcoder succeeds and whose service is overloaded. *)
Definition overloaded_service : environment :=
  Environment (Some "secret") true tmp_talk
    (FfmpegRun 0 EmptyString (Some 960044))
    (fun _ => HttpResponse 503 "overloaded" None) None.

(** A run whose output file cannot be opened for writing. *)
Definition unwritable_output : environment :=
  Environment (Some "secret") true tmp_talk
    (FfmpegRun 0 EmptyString (Some 960044))
    (fun _ => HttpResponse 200 EmptyString (Some two_segment_response)) (Some OSError).

(** The segments the loop body of [transcribe] gets through: an object
    whose [text], when present, is a string and whose [words], when present,
    can be iterated over and yields objects only. *)
Definition accepted_segment (v : pyval) : bool :=
  match v with
  | PDict d =>
      match Dict.get d "text" with
      | Some (PStr _) | None => true
      | Some _ => false
      end &&
      match Dict.get d "words" with
      | Some ws =>
          match py_iter ws with
          | Ok items => forallb is_dict items
          | Raise _ => false
          end
      | None => true
      end
  | _ => false
  end.

(** The responses the normalizer gets through: an object whose [segments],
    when present, can be iterated over and yields accepted segments only. *)
Definition accepted_response (v : pyval) : bool :=
  match response_segments v with
  | Ok items => forallb accepted_segment items
  | Raise _ => false
  end.

(** A response whose only segment has a null [text]. *)
Definition null_text_response : pyval :=
  PDict [("segments", PList [PDict [("start", PInt 0); ("text", PNone)]])].

(** ** Sanity checks of the embedding *)

Example format_timestamp_754 : format_timestamp (PInt 754) = Ok "12m34s".
Proof. reflexivity. Qed.

Example format_timestamp_negative : format_timestamp (PFloat (S754_finite true 3 (-1))) = Ok "59m59s".
Proof. reflexivity. Qed.

Example int_of_str_examples :
  int_of_str " 1_000 " = Ok 1000 /\ int_of_str "-12" = Ok (-12) /\
  int_of_str "1__0" = Raise ValueError /\ int_of_str EmptyString = Raise ValueError.
Proof. repeat split. Qed.

Example int_of_str_whitespace :
  int_of_str (String (ascii_of_nat 28) "12") = Raise ValueError /\
  int_of_str (String (ascii_of_nat 160) "12") = Ok 12 /\
  py_strip (PStr (String (ascii_of_nat 28) "12")) = Ok (PStr "12").
Proof. repeat split. Qed.

Example normalize_padded_response :
  normalize "talk.wav" padded_response =
    Ok (PDict [("audio_file", PStr "talk.wav"); ("language", PStr "en"); ("duration", PInt 0);
               ("segments",
                PList [normalized_with_words;
                       PDict [("start", PInt 0); ("end", PInt 0); ("text", PStr EmptyString)]])]).
Proof. reflexivity. Qed.

Example request_timeout_20_5_MB : request_timeout 21495808 = Ok 182.
Proof. reflexivity. Qed.

Example stem_examples :
  Path.stem_of "talk.mp4" = "talk" /\ Path.stem_of "a.tar.gz" = "a.tar" /\
  Path.stem_of ".hidden" = ".hidden" /\ Path.stem_of "noext" = "noext".
Proof. repeat split. Qed.

Example main_end_to_end :
  let '(r, w') := main (fun _ => EmptyString) succeeding_run
                    (Arguments video_talk None false) world_with_video in
  r = Ok tt /\
  fs w' !! ["home"; "user"; "talk_transcript.json"] = Some (Document two_segment_transcript) /\
  fs w' !! tmp_talk = None /\
  fs w' !! (tmp_talk ++ ["talk.wav"]) = None /\
  stdout w' =
    ["Extracting audio from talk.mp4...";
     "Audio extracted: talk.wav (0.9 MB)";
     "Transcribing talk.wav via Fireworks AI Whisper-v3...";
     "(This may take several minutes for long recordings.)";
     "Transcription complete: 2 segments, 0m30s duration";
     nl +:+ "Transcript saved to: /home/user/talk_transcript.json";
     nl +:+ rule 60;
     "TRANSCRIPT";
     "Duration: 0m30s  |  Language: en";
     "Segments: 2";
     rule 60 +:+ nl;
     "[0m00s -> 0m15s]  hello";
     "[0m15s -> 0m30s]  world";
     nl +:+ rule 60].
Proof. vm_compute. repeat split. Qed.

(** ** Properties of the timestamp formatter *)

Section Timestamp.

Lemma int_of_float_floor s m e :
  int_of_float (S754_finite s m e) =
    Ok (cond_Zopp s (Qfloor (float_value (S754_finite false m e)))).
Proof.
  cbn [int_of_float float_value]. f_equal. f_equal.
  destruct e as [|p|p]; cbn [cond_Zopp].
  - rewrite Qfloor_Z. now apply Z.shiftl_mul_pow2.
  - rewrite Qfloor_Z. now apply Z.shiftl_mul_pow2.
  - unfold Qfloor. rewrite Pos2Z.inj_pow. now rewrite Z.shiftl_div_pow2.
Qed.

(** On a non-negative number [int] is the floor. *)
Lemma py_int_floor v q :
  seconds_of v = Some q -> (0 <= q)%Q -> py_int v = Ok (Qfloor q).
Proof.
  destruct v as [| |z|f| | |]; try discriminate; cbn [seconds_of py_int].
  - intros [= <-] _. now rewrite Qfloor_Z.
  - destruct f as [s| | |s m e]; try discriminate; intros [= <-] Hq.
    + reflexivity.
    + rewrite int_of_float_floor. destruct s; [|reflexivity].
      exfalso. revert Hq. cbn [float_value cond_Zopp].
      destruct e as [|p|p]; unfold Qle; cbn -[Z.pow]; lia.
Qed.

Lemma floor_nonneg q : (0 <= q)%Q -> 0 <= Qfloor q.
Proof. intros H. apply Qfloor_resp_le in H. exact H. Qed.

Lemma floor_lt_iff q (n : Z) : (q < inject_Z n)%Q <-> Qfloor q < n.
Proof.
  split; intros H.
  - rewrite Zlt_Qlt. eapply Qle_lt_trans; [apply Qfloor_le | exact H].
  - eapply Qlt_le_trans; [apply Qlt_floor|]. rewrite <- Zle_Qle. lia.
Qed.

(** The formatter on the truncated number of seconds. *)
Lemma format_timestamp_unfold v t :
  py_int v = Ok t ->
  format_timestamp v =
    Ok (if 0 <? t / 3600
        then str_of_int (t / 3600) +:+ "h" +:+ format_02d (t mod 3600 / 60) +:+ "m"
               +:+ format_02d (t mod 3600 mod 60) +:+ "s"
        else str_of_int (t mod 3600 / 60) +:+ "m" +:+ format_02d (t mod 3600 mod 60) +:+ "s").
Proof.
  intros H. unfold format_timestamp. rewrite H. cbn [mbind result_bind divmod].
  now destruct (0 <? t / 3600).
Qed.

Lemma mod_3600_60 t : t mod 3600 mod 60 = t mod 60.
Proof.
  Z.to_euclidean_division_equations. lia.
Qed.

Lemma format_02d_two_digits x : 0 <= x < 100 -> format_02d x = two_digits x.
Proof.
  intros Hx.
  assert (forallb (fun k => String.eqb (format_02d (Z.of_nat k)) (two_digits (Z.of_nat k)))
            (seq 0 100) = true) as Hall by (vm_compute; reflexivity).
  rewrite forallb_forall in Hall. specialize (Hall (Z.to_nat x)).
  rewrite Z2Nat.id in Hall by lia. apply String.eqb_eq, Hall, in_seq. lia.
Qed.

Lemma two_digits_digits x : 0 <= x < 100 -> all_chars is_digit (two_digits x) = true.
Proof.
  intros Hx.
  assert (forallb (fun k => all_chars is_digit (two_digits (Z.of_nat k))) (seq 0 100) = true)
    as Hall by (vm_compute; reflexivity).
  rewrite forallb_forall in Hall. specialize (Hall (Z.to_nat x)).
  rewrite Z2Nat.id in Hall by lia. apply Hall, in_seq. lia.
Qed.

Lemma string_of_uint_digits d : all_chars is_digit (NilEmpty.string_of_uint d) = true.
Proof. induction d; cbn [NilEmpty.string_of_uint all_chars]; try rewrite IHd; reflexivity. Qed.

(** The decimal rendering of a non-negative integer has digits only. *)
Lemma str_of_int_digits z : 0 <= z -> all_chars is_digit (str_of_int z) = true.
Proof.
  intros Hz. destruct z as [|p|p]; [reflexivity | | lia].
  unfold str_of_int. cbn [Z.to_int NilZero.string_of_int NilZero.string_of_uint].
  destruct (Pos.to_uint p); try apply string_of_uint_digits. reflexivity.
Qed.

Lemma append_assoc s1 s2 s3 : (s1 +:+ s2) +:+ s3 = s1 +:+ s2 +:+ s3.
Proof.
  induction s1 as [|c s1 IH]; [reflexivity|].
  change (String c ((s1 +:+ s2) +:+ s3) = String c (s1 +:+ s2 +:+ s3)). now rewrite IH.
Qed.

Lemma contains_app c s1 s2 : contains c (s1 +:+ s2) = contains c s1 || contains c s2.
Proof.
  induction s1 as [|c' s1 IH]; simpl; [reflexivity|].
  now rewrite IH, orb_assoc.
Qed.

Lemma digits_no_letter c s :
  is_digit c = false -> all_chars is_digit s = true -> contains c s = false.
Proof.
  intros Hc. induction s as [|c' s IH]; cbn; [reflexivity|].
  intros [Hc' Hs]%andb_prop. rewrite (IH Hs), orb_false_r.
  destruct (Ascii.eqb_spec c c'); [congruence | reflexivity].
Qed.

End Timestamp.

(** C2: on non-negative seconds the formatter truncates to whole seconds [t]
    (the floor of the input) and renders [t / 60] minutes and [t mod 60]
    seconds, the latter as [:02d], when the input is under one hour, and
    hours, minutes [:02d] and seconds [:02d] otherwise; 0, 59, 60, 3661 and
    1.9 render as "0m00s", "0m59s", "1m00s", "1h01m01s" and "0m01s". *)
Theorem format_timestamp_spec :
  (forall (seconds : pyval) (q : Q),
     seconds_of seconds = Some q -> (0 <= q)%Q ->
     let t := Qfloor q in
     ((q < 3600)%Q ->
      format_timestamp seconds =
        Ok (str_of_int (t / 60) +:+ "m" +:+ format_02d (t mod 60) +:+ "s")) /\
     ((3600 <= q)%Q ->
      format_timestamp seconds =
        Ok (str_of_int (t / 3600) +:+ "h" +:+ format_02d (t mod 3600 / 60) +:+ "m"
              +:+ format_02d (t mod 60) +:+ "s"))) /\
  format_timestamp (PInt 0) = Ok "0m00s" /\
  format_timestamp (PInt 59) = Ok "0m59s" /\
  format_timestamp (PInt 60) = Ok "1m00s" /\
  format_timestamp (PInt 3661) = Ok "1h01m01s" /\
  one_point_nine = b64_div (float_of_int 19) (float_of_int 10) /\
  format_timestamp (PFloat one_point_nine) = Ok "0m01s".
Proof.
  split; [|repeat split].
  intros seconds q Hv Hq t.
  pose proof (floor_nonneg q Hq) as Ht. fold t in Ht.
  rewrite (format_timestamp_unfold seconds t) by (now apply py_int_floor).
  rewrite mod_3600_60. split; intros Hlt.
  - apply (floor_lt_iff q 3600) in Hlt. fold t in Hlt.
    rewrite (Z.div_small t 3600), (Z.mod_small t 3600) by lia. reflexivity.
  - assert (3600 <= t) as Hge.
    { change 3600 with (Qfloor 3600). now apply Qfloor_resp_le. }
    assert (0 < t / 3600) as Hh by (apply Z.div_str_pos; lia).
    apply Z.ltb_lt in Hh. now rewrite Hh.
Qed.

Lemma format_timestamp_spec_witness :
  format_timestamp (PFloat (S754_finite false 7323 (-1))) = Ok "1h01m01s".
Proof.
  apply (proj1 format_timestamp_spec (PFloat (S754_finite false 7323 (-1))) (7323 # 2)).
  - reflexivity.
  - unfold Qle; cbn; lia.
  - unfold Qle; cbn; lia.
Defined.

(** C10: on non-negative seconds the output is in canonical clock form.  The
    truncated input splits as [3600 * hours + 60 * minutes + secs] with
    minutes and seconds in [0, 60); the seconds are printed in exactly two
    digits; with an hours component the minutes are printed in exactly two
    digits; and the letter h occurs exactly when the truncated input is at
    least 3600. *)
Theorem format_timestamp_canonical (seconds : pyval) (q : Q) :
  seconds_of seconds = Some q -> (0 <= q)%Q ->
  exists (hours minutes secs : Z) (out : string),
    format_timestamp seconds = Ok out /\
    Qfloor q = 3600 * hours + 60 * minutes + secs /\
    0 <= hours /\ 0 <= minutes < 60 /\ 0 <= secs < 60 /\
    out = (if 3600 <=? Qfloor q
           then str_of_int hours +:+ "h" +:+ two_digits minutes
           else str_of_int minutes) +:+ "m" +:+ two_digits secs +:+ "s" /\
    all_chars is_digit (str_of_int hours) = true /\
    all_chars is_digit (str_of_int minutes) = true /\
    (contains "h" out = true <-> 3600 <= Qfloor q).
Proof.
  intros Hv Hq. pose proof (floor_nonneg q Hq) as Ht.
  set (t := Qfloor q) in *.
  assert (0 <= t / 3600) as Hh by (apply Z.div_pos; lia).
  assert (0 <= t mod 3600 / 60 < 60) as Hm by (Z.to_euclidean_division_equations; lia).
  assert (0 <= t mod 60 < 60) as Hs by (apply Z.mod_pos_bound; lia).
  exists (t / 3600), (t mod 3600 / 60), (t mod 60).
  eexists. split.
  { rewrite (format_timestamp_unfold seconds t) by (now apply py_int_floor).
    rewrite mod_3600_60. reflexivity. }
  split; [Z.to_euclidean_division_equations; lia|].
  split; [exact Hh|]. split; [exact Hm|]. split; [exact Hs|].
  assert ((0 <? t / 3600) = (3600 <=? t)) as Hcase.
  { apply eq_true_iff_eq. rewrite Z.ltb_lt, Z.leb_le.
    Z.to_euclidean_division_equations. lia. }
  rewrite Hcase.
  rewrite !format_02d_two_digits by lia.
  pose proof (str_of_int_digits _ Hh) as Dh.
  pose proof (str_of_int_digits (t mod 3600 / 60) ltac:(lia)) as Dm.
  pose proof (two_digits_digits (t mod 3600 / 60) ltac:(lia)) as Dm2.
  pose proof (two_digits_digits (t mod 60) ltac:(lia)) as Ds2.
  split; [destruct (3600 <=? t); now rewrite ?append_assoc|].
  split; [exact Dh|]. split; [exact Dm|].
  destruct (Z.leb_spec 3600 t) as [Hge|Hlt].
  - rewrite !contains_app. cbn [contains]. rewrite Ascii.eqb_refl.
    rewrite orb_true_r. cbn. tauto.
  - rewrite !contains_app.
    rewrite (digits_no_letter "h" _ eq_refl Dm), (digits_no_letter "h" _ eq_refl Ds2).
    cbn. split; [discriminate | lia].
Qed.

Lemma format_timestamp_canonical_witness :
  exists (hours minutes secs : Z) (out : string),
    format_timestamp (PInt 3661) = Ok out /\
    Qfloor (inject_Z 3661) = 3600 * hours + 60 * minutes + secs /\
    0 <= hours /\ 0 <= minutes < 60 /\ 0 <= secs < 60 /\
    out = (if 3600 <=? Qfloor (inject_Z 3661)
           then str_of_int hours +:+ "h" +:+ two_digits minutes
           else str_of_int minutes) +:+ "m" +:+ two_digits secs +:+ "s" /\
    all_chars is_digit (str_of_int hours) = true /\
    all_chars is_digit (str_of_int minutes) = true /\
    (contains "h" out = true <-> 3600 <= Qfloor (inject_Z 3661)).
Proof.
  apply (format_timestamp_canonical (PInt 3661) (inject_Z 3661)).
  - reflexivity.
  - unfold Qle; cbn; lia.
Defined.

(** ** Properties of the response normalizer *)

Section Normalizer.

Lemma mapM_Forall2 {A B} (f : A -> result B) l l' :
  mapM f l = Ok l' <-> Forall2 (fun x y => f x = Ok y) l l'.
Proof.
  revert l'. induction l as [|x l IH]; intros l'; cbn [mapM].
  - split; [intros [= <-]; constructor | now inversion 1].
  - destruct (f x) as [y|e] eqn:Hx; cbn [mbind result_bind].
    + destruct (mapM f l) as [ys|e] eqn:Hl; cbn [mbind result_bind].
      * split.
        -- intros [= <-]. constructor; [exact Hx | now apply IH].
        -- inversion 1 as [|? y' ? ys' Hy Hys]; subst.
           apply IH in Hys. congruence.
      * split; [discriminate|].
        inversion 1 as [|? y' ? ys' Hy Hys]; subst. apply IH in Hys. discriminate.
    + split; [discriminate|]. inversion 1; congruence.
Qed.

(** The loop with [append] builds the list a comprehension would build. *)
Lemma segments_loop_mapM items acc :
  segments_loop items acc = (ys ← mapM normalize_segment items; Ok (acc ++ ys)).
Proof.
  revert acc. induction items as [|x items IH]; intros acc; cbn [segments_loop mapM].
  - cbn. now rewrite app_nil_r.
  - destruct (normalize_segment x) as [y|e]; cbn [mbind result_bind]; [|reflexivity].
    rewrite IH. destruct (mapM normalize_segment items) as [ys|e]; cbn [mbind result_bind].
    + now rewrite <- app_assoc.
    + reflexivity.
Qed.

Lemma segments_loop_Forall2 items segs :
  segments_loop items [] = Ok segs <->
  Forall2 (fun x y => normalize_segment x = Ok y) items segs.
Proof.
  rewrite segments_loop_mapM, <- mapM_Forall2.
  destruct (mapM normalize_segment items); cbn; split; congruence.
Qed.

Lemma normalize_inv audio_name response t :
  normalize audio_name response = Ok t ->
  exists d items segs,
    response = PDict d /\
    response_segments response = Ok items /\
    segments_loop items [] = Ok segs /\
    t = PDict [("audio_file", PStr audio_name);
               ("language", default (PStr "en") (Dict.get d "language"));
               ("duration", default (PInt 0) (Dict.get d "duration"));
               ("segments", PList segs)].
Proof.
  unfold normalize, response_segments.
  destruct response as [| | | | | |d]; try discriminate.
  cbn [py_get mbind result_bind].
  destruct (py_iter _) as [items|e] eqn:Hi; cbn [mbind result_bind]; [|discriminate].
  destruct (segments_loop items []) as [segs|e] eqn:Hl; cbn [mbind result_bind]; [|discriminate].
  intros [= <-]. exists d, items, segs. repeat split; assumption.
Qed.

End Normalizer.

(** C7: the normalized [segments] keep the order of the response: there are
    as many normalized segments as response segments, and the i-th one is the
    normalization of the i-th response segment. *)
Theorem segments_order_preserved (audio_name : string) (response t : pyval) (items : list pyval) :
  response_segments response = Ok items ->
  normalize audio_name response = Ok t ->
  exists segs : list pyval,
    py_getitem t "segments" = Ok (PList segs) /\
    length segs = length items /\
    forall (i : nat) (x : pyval),
      items !! i = Some x ->
      exists y, segs !! i = Some y /\ normalize_segment x = Ok y.
Proof.
  intros Hitems (d & items' & segs & -> & Hitems' & Hloop & ->)%normalize_inv.
  assert (items' = items) as -> by congruence.
  apply segments_loop_Forall2 in Hloop.
  exists segs. split; [reflexivity|]. split.
  - symmetry. eapply Forall2_length, Hloop.
  - intros i x Hx.
    destruct (Forall2_lookup_l _ _ _ _ _ Hloop Hx) as (y & Hy & Hxy). eauto.
Qed.

Lemma segments_order_preserved_witness :
  exists segs : list pyval,
    py_getitem two_segment_transcript "segments" = Ok (PList segs) /\
    length segs = length two_segments /\
    forall (i : nat) (x : pyval),
      two_segments !! i = Some x ->
      exists y, segs !! i = Some y /\ normalize_segment x = Ok y.
Proof.
  apply (segments_order_preserved "talk.wav" two_segment_response two_segment_transcript
           two_segments).
  - reflexivity.
  - reflexivity.
Defined.

Section Segments.

(** What a successful run of the loop body says about its input and its
    output. *)
Lemma normalize_segment_inv segment out :
  normalize_segment segment = Ok out ->
  exists d s,
    segment = PDict d /\
    default (PStr EmptyString) (Dict.get d "text") = PStr s /\
    match Dict.get d "words" with
    | None => out = PDict (segment_base d s)
    | Some ws =>
        exists items words,
          py_iter ws = Ok items /\
          Forall2 (fun w w' => normalize_word w = Ok w') items words /\
          out = PDict (segment_base d s ++ [("words", PList words)])
    end.
Proof.
  unfold normalize_segment.
  destruct segment as [| | | | | |d]; try discriminate.
  cbn [py_get mbind result_bind]. unfold Dict.mem, py_getitem.
  intros H. exists d.
  assert (exists s, default (PStr EmptyString) (Dict.get d "text") = PStr s /\
                    (py_strip (default (PStr EmptyString) (Dict.get d "text")) = Ok (PStr (strip s))))
    as (s & Hs & Hstrip).
  { destruct (Dict.get d "text") as [[| | | |s| |]|]; try discriminate; cbn; eauto. }
  exists s. split; [reflexivity|]. split; [exact Hs|].
  change (match Dict.get d "text" with Some x => x | None => PStr EmptyString end)
    with (default (PStr EmptyString) (Dict.get d "text")) in H.
  rewrite Hstrip in H. cbn [mbind result_bind] in H.
  destruct (Dict.get d "words") as [ws|]; cbn [mbind result_bind] in H.
  - destruct (py_iter ws) as [items|e]; cbn [mbind result_bind] in H; [|discriminate].
    destruct (mapM normalize_word items) as [words|e] eqn:Hw;
      cbn [mbind result_bind] in H; [|discriminate].
    exists items, words. split; [reflexivity|]. split; [now apply mapM_Forall2|].
    now injection H as <-.
  - now injection H as <-.
Qed.

(** Any dict is normalized as a word entry, with the defaults. *)
Lemma normalize_word_dict (w : pydict) :
  normalize_word (PDict w) =
    Ok (PDict [("word", default (PStr EmptyString) (Dict.get w "word"));
               ("start", default (PInt 0) (Dict.get w "start"));
               ("end", default (PInt 0) (Dict.get w "end"))]).
Proof. reflexivity. Qed.

Lemma normalize_word_inv w w' :
  normalize_word w = Ok w' -> exists d, w = PDict d.
Proof. destruct w; try discriminate. eauto. Qed.

End Segments.

(** C4: a normalized segment has the key [words] exactly when the response
    segment has it; without it the normalized segment has the keys [start],
    [end] and [text] and nothing else, so no empty list and no null stands in
    for the missing words; with it the key holds a list. *)
Theorem words_key_iff (segment out : pyval) :
  normalize_segment segment = Ok out ->
  exists d o : pydict,
    segment = PDict d /\ out = PDict o /\
    Dict.mem o "words" = Dict.mem d "words" /\
    (Dict.mem d "words" = false -> Dict.keys o = ["start"; "end"; "text"]) /\
    (Dict.mem d "words" = true -> exists words, Dict.get o "words" = Some (PList words)).
Proof.
  intros (d & s & -> & _ & H)%normalize_segment_inv.
  destruct (Dict.get d "words") as [ws|] eqn:Hw.
  - destruct H as (items & words & _ & _ & ->).
    exists d. eexists. split; [reflexivity|]. split; [reflexivity|].
    unfold Dict.mem. rewrite Hw.
    split; [reflexivity|]. split; [discriminate|]. intros _. now exists words.
  - subst out. exists d. eexists. split; [reflexivity|]. split; [reflexivity|].
    unfold Dict.mem. rewrite Hw.
    split; [reflexivity|]. split; [reflexivity | discriminate].
Qed.

Lemma words_key_iff_witness :
  exists d o : pydict,
    segment_with_words = PDict d /\ normalized_with_words = PDict o /\
    Dict.mem o "words" = Dict.mem d "words" /\
    (Dict.mem d "words" = false -> Dict.keys o = ["start"; "end"; "text"]) /\
    (Dict.mem d "words" = true -> exists words, Dict.get o "words" = Some (PList words)).
Proof.
  apply (words_key_iff segment_with_words normalized_with_words).
  reflexivity.
Defined.

(** C9: every entry of a segment's [words] list is normalized to a dict with
    exactly the keys [word], [start] and [end]; a missing [word] becomes the
    empty string and a missing [start] or [end] becomes 0, so an entry that
    is a JSON object is normalized whatever fields it lacks. *)
Theorem word_normalization :
  (forall w : pydict,
     exists o : pydict,
       normalize_word (PDict w) = Ok (PDict o) /\
       Dict.keys o = ["word"; "start"; "end"] /\
       Dict.get o "word" = Some (default (PStr EmptyString) (Dict.get w "word")) /\
       Dict.get o "start" = Some (default (PInt 0) (Dict.get w "start")) /\
       Dict.get o "end" = Some (default (PInt 0) (Dict.get w "end"))) /\
  (forall (d : pydict) (ws : list pyval) (out : pyval),
     Dict.get d "words" = Some (PList ws) ->
     normalize_segment (PDict d) = Ok out ->
     exists words : list pyval,
       py_getitem out "words" = Ok (PList words) /\
       length words = length ws /\
       forall (i : nat) (w : pyval),
         ws !! i = Some w ->
         exists (wd : pydict) (w' : pyval),
           w = PDict wd /\ words !! i = Some w' /\ normalize_word (PDict wd) = Ok w').
Proof.
  split.
  - intros w. eexists. rewrite normalize_word_dict. repeat split.
  - intros d ws out Hws (d' & s & [= <-] & _ & H)%normalize_segment_inv.
    rewrite Hws in H. destruct H as (items & words & [= <-] & HF & ->).
    exists words. split; [reflexivity|]. split.
    + symmetry. eapply Forall2_length, HF.
    + intros i w Hw.
      destruct (Forall2_lookup_l _ _ _ _ _ HF Hw) as (w' & Hw' & Hn).
      destruct (normalize_word_inv _ _ Hn) as [wd ->]. eauto.
Qed.

Section Strip.

Lemma lstrip_decompose s :
  exists a, s = a +:+ lstrip s /\ all_chars is_space a = true.
Proof.
  induction s as [|c s (a & Ha & Hsp)]; [now exists EmptyString|].
  cbn [lstrip]. destruct (is_space c) eqn:Hc.
  - exists (String c a). split.
    + change (String c s = String c (a +:+ lstrip s)). now rewrite <- Ha.
    + cbn [all_chars]. now rewrite Hc.
  - now exists EmptyString.
Qed.

Lemma lstrip_head s : head_space (lstrip s) = false.
Proof.
  induction s as [|c s IH]; [reflexivity|].
  cbn [lstrip]. now destruct (is_space c) eqn:Hc; cbn [head_space].
Qed.

Lemma rstrip_decompose s :
  exists b, s = rstrip s +:+ b /\ all_chars is_space b = true.
Proof.
  induction s as [|c s (b & Hb & Hsp)]; [now exists EmptyString|].
  cbn [rstrip]. destruct (rstrip s) as [|c2 r] eqn:Hr.
  - change (EmptyString +:+ b) with b in Hb. subst b.
    destruct (is_space c) eqn:Hc.
    + exists (String c s). split; [reflexivity|]. cbn [all_chars]. now rewrite Hc.
    + exists s. split; [reflexivity | assumption].
  - exists b. split; [|assumption].
    change (String c s = String c (String c2 r +:+ b)). now rewrite <- Hb.
Qed.

Lemma rstrip_last s : last_space (rstrip s) = false.
Proof.
  induction s as [|c s IH]; [reflexivity|].
  cbn [rstrip]. destruct (rstrip s) as [|c2 r].
  - now destruct (is_space c) eqn:Hc; cbn [last_space].
  - exact IH.
Qed.

Lemma rstrip_head s : head_space s = false -> head_space (rstrip s) = false.
Proof.
  destruct s as [|c s]; [reflexivity|]. cbn [head_space rstrip]. intros Hc.
  destruct (rstrip s); [rewrite Hc|]; assumption.
Qed.

(** [strip] removes whitespace, and only whitespace, at both ends. *)
Lemma strip_trimmed s :
  head_space (strip s) = false /\ last_space (strip s) = false /\
  exists a b, s = a +:+ strip s +:+ b /\
              all_chars is_space a = true /\ all_chars is_space b = true.
Proof.
  unfold strip. split; [apply rstrip_head, lstrip_head|]. split; [apply rstrip_last|].
  destruct (lstrip_decompose s) as (a & Ha & Hsa).
  destruct (rstrip_decompose (lstrip s)) as (b & Hb & Hsb).
  exists a, b. split; [|now split]. now rewrite <- Hb.
Qed.

End Strip.

Section Defaults.

Lemma normalize_word_ok ws :
  forallb is_dict ws = true -> exists words, mapM normalize_word ws = Ok words.
Proof.
  induction ws as [|w ws IH]; cbn [forallb mapM]; [eauto|].
  intros [Hw Hws]%andb_prop. destruct (IH Hws) as [words Hwords].
  destruct w; try discriminate. rewrite normalize_word_dict, Hwords. cbn. eauto.
Qed.

(** A well-shaped segment is normalized. *)
Lemma normalize_segment_ok segment :
  wf_segment segment = true -> exists out, normalize_segment segment = Ok out.
Proof.
  destruct segment as [| | | | | |d]; try discriminate.
  cbn [wf_segment]. intros [Ht Hw]%andb_prop.
  unfold normalize_segment. cbn [py_get mbind result_bind]. unfold Dict.mem, py_getitem.
  assert (exists s, py_strip (match Dict.get d "text" with
                              | Some x => x | None => PStr EmptyString end) = Ok (PStr s))
    as [s ->].
  { destruct (Dict.get d "text") as [[| | | |s| |]|]; try discriminate; cbn; eauto. }
  cbn [mbind result_bind].
  destruct (Dict.get d "words") as [[| | | | |ws|]|]; try discriminate; [|eauto].
  cbn [mbind result_bind py_iter].
  destruct (normalize_word_ok ws Hw) as [words ->]. cbn. eauto.
Qed.

Lemma segments_loop_ok items :
  forallb wf_segment items = true -> exists segs, segments_loop items [] = Ok segs.
Proof.
  rewrite segments_loop_mapM.
  induction items as [|x items IH]; cbn [forallb mapM]; [cbn; eauto|].
  intros [Hx Hitems]%andb_prop.
  destruct (normalize_segment_ok x Hx) as [y ->].
  destruct (IH Hitems) as [segs Hsegs]. cbn [mbind result_bind] in *.
  destruct (mapM normalize_segment items); [|discriminate]. cbn. eauto.
Qed.

End Defaults.

Section Trimming.

Lemma ltrim_decompose {A} (P : A -> bool) (l : list A) :
  exists a, l = a ++ ltrim P l /\ forallb P a = true.
Proof.
  induction l as [|x l (a & Ha & Hsp)]; [now exists []|].
  cbn [ltrim]. destruct (P x) eqn:Hx.
  - exists (x :: a). split; [cbn; now rewrite <- Ha | cbn; now rewrite Hx].
  - now exists [].
Qed.

Lemma ltrim_head {A} (P : A -> bool) (l : list A) (x : A) :
  head (ltrim P l) = Some x -> P x = false.
Proof.
  induction l as [|y l IH]; [discriminate|].
  cbn [ltrim]. destruct (P y) eqn:Hy; [exact IH|]. now intros [= <-].
Qed.

Lemma rtrim_decompose {A} (P : A -> bool) (l : list A) :
  exists b, l = rtrim P l ++ b /\ forallb P b = true.
Proof.
  induction l as [|x l (b & Hb & Hsp)]; [now exists []|].
  cbn [rtrim]. destruct (rtrim P l) as [|y r] eqn:Hr.
  - cbn [app] in Hb. subst b. destruct (P x) eqn:Hx.
    + exists (x :: l). split; [reflexivity|]. cbn. now rewrite Hx.
    + exists l. split; [reflexivity | assumption].
  - exists b. split; [|assumption]. rewrite <- app_comm_cons. f_equal. exact Hb.
Qed.

Lemma rtrim_last {A} (P : A -> bool) (l : list A) (x : A) :
  last (rtrim P l) = Some x -> P x = false.
Proof.
  induction l as [|y l IH]; [discriminate|].
  cbn [rtrim]. destruct (rtrim P l) as [|z r].
  - destruct (P y) eqn:Hy; [discriminate|]. now intros [= <-].
  - exact IH.
Qed.

Lemma rtrim_head {A} (P : A -> bool) (l : list A) (x : A) :
  head (rtrim P l) = Some x -> head l = Some x.
Proof.
  destruct l as [|y l]; [discriminate|]. cbn [rtrim].
  destruct (rtrim P l); [destruct (P y); [discriminate|]|]; now intros [= <-].
Qed.

(** Stripping removes the characters that pass the test, and only them, at
    both ends. *)
Lemma trim_spec {A} (P : A -> bool) (l : list A) :
  (exists a b, l = a ++ trim P l ++ b /\ forallb P a = true /\ forallb P b = true) /\
  (forall x, head (trim P l) = Some x -> P x = false) /\
  (forall x, last (trim P l) = Some x -> P x = false).
Proof.
  unfold trim. split; [|split].
  - destruct (ltrim_decompose P l) as (a & Ha & Hsa).
    destruct (rtrim_decompose P (ltrim P l)) as (b & Hb & Hsb).
    exists a, b. split; [|now split]. now rewrite <- Hb.
  - intros x Hx. eapply ltrim_head, rtrim_head, Hx.
  - intros x. apply rtrim_last.
Qed.

(** The test of the model is the list of Python's whitespace. *)
Lemma is_space_code_whitespace (n : N) : is_space_code n = whitespace_code n.
Proof.
  unfold is_space_code, whitespace_code, unicode_whitespace. cbn [existsb].
  repeat match goal with
         | |- context [N.eqb n ?k] => destruct (N.eqb_spec n k) as [->|]; [reflexivity|]
         end.
  repeat match goal with
         | |- context [N.leb ?a ?b] => destruct (N.leb_spec a b)
         end; cbn; try reflexivity; lia.
Qed.

Lemma is_space_whitespace (c : ascii) : is_space c = whitespace c.
Proof.
  unfold whitespace. rewrite <- is_space_code_whitespace.
  destruct c as [[] [] [] [] [] [] [] []]; reflexivity.
Qed.

Lemma all_chars_ext (P Q : ascii -> bool) (s : string) :
  (forall c, P c = Q c) -> all_chars P s = all_chars Q s.
Proof. intros H. induction s as [|c s IH]; cbn; [reflexivity|]. now rewrite H, IH. Qed.

Lemma head_space_first s :
  head_space s = false -> forall c, first_char s = Some c -> whitespace c = false.
Proof.
  destruct s as [|c0 s]; [discriminate 2|]. cbn [head_space first_char]. intros H c [= <-].
  now rewrite <- is_space_whitespace.
Qed.

Lemma last_space_last s :
  last_space s = false -> forall c, last_char s = Some c -> whitespace c = false.
Proof.
  induction s as [|c0 s IH]; [discriminate 2|].
  destruct s as [|c1 s].
  - cbn [last_space last_char]. intros H c [= <-]. now rewrite <- is_space_whitespace.
  - intros H c Hc. now apply IH.
Qed.

(** [strip] on the strings of the model. *)
Lemma strip_is_trimmed (s : string) : trimmed s (strip s).
Proof.
  destruct (strip_trimmed s) as (Hhead & Hlast & a & b & Hs & Ha & Hb).
  split; [|split].
  - exists a, b. split; [exact Hs|].
    now rewrite <- !(all_chars_ext is_space whitespace _ is_space_whitespace).
  - now apply head_space_first.
  - now apply last_space_last.
Qed.

Lemma codes_cons c s : codes (String c s) = N_of_ascii c :: codes s.
Proof. reflexivity. Qed.

Lemma is_space_code_ascii (c : ascii) : is_space_code (N_of_ascii c) = is_space c.
Proof. now rewrite is_space_code_whitespace, is_space_whitespace. Qed.

Lemma lstrip_codes s : codes (lstrip s) = ltrim is_space_code (codes s).
Proof.
  induction s as [|c s IH]; [reflexivity|].
  rewrite codes_cons. cbn [lstrip ltrim]. rewrite is_space_code_ascii.
  destruct (is_space c); [exact IH | apply codes_cons].
Qed.

Lemma rstrip_codes s : codes (rstrip s) = rtrim is_space_code (codes s).
Proof.
  induction s as [|c s IH]; [reflexivity|].
  rewrite codes_cons. cbn [rstrip rtrim]. rewrite <- IH, is_space_code_ascii.
  destruct (rstrip s) as [|c2 r]; [now destruct (is_space c)|].
  now rewrite !codes_cons.
Qed.

(** [strip] is [str.strip] on the strings whose code points are below 256. *)
Lemma strip_codes_agree s : codes (strip s) = strip_codes (codes s).
Proof. unfold strip, strip_codes, trim. now rewrite rstrip_codes, lstrip_codes. Qed.

Lemma strip_codes_trimmed (l : list N) : trimmed_codes l (strip_codes l).
Proof.
  destruct (trim_spec is_space_code l) as ((a & b & Hl & Ha & Hb) & Hhead & Hlast).
  assert (forall k, forallb is_space_code k = forallb whitespace_code k) as Hext.
  { induction k as [|n k IH]; cbn; [reflexivity|]. now rewrite is_space_code_whitespace, IH. }
  split; [|split].
  - exists a, b. split; [exact Hl|]. now rewrite <- !Hext.
  - intros n Hn. rewrite <- is_space_code_whitespace. now apply Hhead.
  - intros n Hn. rewrite <- is_space_code_whitespace. now apply Hlast.
Qed.

End Trimming.

(** C5: a response whose optional fields are absent in any combination is
    normalized, never rejected: a missing [language] becomes "en", a missing
    [duration] becomes 0, and in every segment a missing [start] or [end]
    becomes 0, a missing [text] becomes the empty string, and the normalized
    text is the text without the whitespace around it: the text is the
    normalized text between two runs of whitespace, and the normalized text
    neither begins nor ends with whitespace.  Whitespace is Python's, listed
    code point by code point.  The strings of the embedding have code points
    below 256; the stripping itself is [str.strip] on them, which removes
    the whitespace, and only it, around a string of any code points. *)
Theorem normalize_defaults :
  (forall (audio_name : string) (response : pyval),
     wf_response response = true ->
     exists (d : pydict) (items segs : list pyval),
       response = PDict d /\
       response_segments response = Ok items /\
       normalize audio_name response =
         Ok (PDict [("audio_file", PStr audio_name);
                    ("language", default (PStr "en") (Dict.get d "language"));
                    ("duration", default (PInt 0) (Dict.get d "duration"));
                    ("segments", PList segs)]) /\
       Forall2 segment_defaults items segs) /\
  (forall s : string, codes (strip s) = strip_codes (codes s)) /\
  (forall l : list N, trimmed_codes l (strip_codes l)).
Proof.
  split; [|split; [exact strip_codes_agree | exact strip_codes_trimmed]].
  intros audio_name response.
  destruct response as [| | | | | |d]; try discriminate. cbn [wf_response]. intros Hwf.
  assert (exists items, response_segments (PDict d) = Ok items /\
                        forallb wf_segment items = true) as (items & Hitems & Hall).
  { unfold response_segments. cbn [py_get mbind result_bind].
    destruct (Dict.get d "segments") as [[| | | | |segs|]|]; try discriminate; cbn; eauto. }
  destruct (segments_loop_ok items Hall) as [segs Hsegs].
  exists d, items, segs. split; [reflexivity|]. split; [exact Hitems|]. split.
  - unfold normalize. unfold response_segments in Hitems.
    cbn [py_get mbind result_bind] in *. rewrite Hitems. cbn [mbind result_bind].
    rewrite Hsegs. reflexivity.
  - apply segments_loop_Forall2 in Hsegs.
    eapply Forall2_impl; [exact Hsegs|]. cbn beta.
    intros x y (sd & s & -> & Hs & Hout)%normalize_segment_inv.
    pose proof (strip_is_trimmed s) as Htrim.
    destruct (Dict.get sd "words").
    + destruct Hout as (ws & words & _ & _ & ->). exists sd. eexists. exists s, (strip s).
      split; [reflexivity|]. split; [reflexivity|]. split; [reflexivity|].
      split; [reflexivity|]. split; [exact Hs|]. split; [reflexivity | exact Htrim].
    + subst y. exists sd. eexists. exists s, (strip s).
      split; [reflexivity|]. split; [reflexivity|]. split; [reflexivity|].
      split; [reflexivity|]. split; [exact Hs|]. split; [reflexivity | exact Htrim].
Qed.

Lemma normalize_defaults_witness :
  exists (d : pydict) (items segs : list pyval),
    padded_response = PDict d /\
    response_segments padded_response = Ok items /\
    normalize "talk.wav" padded_response =
      Ok (PDict [("audio_file", PStr "talk.wav");
                 ("language", default (PStr "en") (Dict.get d "language"));
                 ("duration", default (PInt 0) (Dict.get d "duration"));
                 ("segments", PList segs)]) /\
    Forall2 segment_defaults items segs.
Proof.
  apply (proj1 normalize_defaults "talk.wav" padded_response).
  reflexivity.
Defined.

(** ** The console rendering *)

Section Console.

Variable py_repr : pyval -> string.

Lemma bind_lift_ok {A B} (r : result A) (a : A) (k : A -> M B) w :
  r = Ok a -> (lift r ≫= k) w = k a w.
Proof. now intros ->. Qed.

Lemma bind_print {B} (s : string) (k : unit -> M B) w :
  (print s ≫= k) w = k tt (World (fs w) (stdout w ++ [s]) (stderr w)).
Proof. reflexivity. Qed.

Lemma print_segment_line segment line w :
  segment_line py_repr segment line ->
  print_segment py_repr segment w = (Ok tt, World (fs w) (stdout w ++ [line]) (stderr w)).
Proof.
  intros (start & end_ & text & Hs & He & Ht & ->). unfold print_segment.
  rewrite (bind_lift_ok _ _ _ _ Hs), (bind_lift_ok _ _ _ _ He), (bind_lift_ok _ _ _ _ Ht).
  reflexivity.
Qed.

Lemma for_each_lines segments lines w :
  Forall2 (segment_line py_repr) segments lines ->
  for_each segments (print_segment py_repr) w =
    (Ok tt, World (fs w) (stdout w ++ lines) (stderr w)).
Proof.
  intros H. revert w. induction H as [|x line xs ls Hx _ IH]; intros w.
  - cbn. rewrite app_nil_r. now destruct w.
  - cbn [for_each]. unfold mbind at 1, M_bind.
    rewrite (print_segment_line _ _ _ Hx), IH. cbn [fs stdout stderr].
    now rewrite <- app_assoc.
Qed.

End Console.

(** C8: for a transcript whose timestamps the formatter renders, the console
    shows the banner, then one entry per segment, in segment order, of the
    form "[<start> -> <end>]  <text>", then the closing rule; the two-segment
    scenario prints "[0m00s -> 0m15s]  hello" and "[0m15s -> 0m30s]  world",
    in that order. *)
Theorem print_transcript_lines :
  (forall (py_repr : pyval -> string) (transcript : pyval) (segments : list pyval)
          (duration : string) (lines : list string) (w : world),
     py_getitem transcript "segments" = Ok (PList segments) ->
     py_get transcript "duration" (PInt 0) ≫= format_timestamp = Ok duration ->
     Forall2 (segment_line py_repr) segments lines ->
     exists lang : pyval,
       py_get transcript "language" (PStr "unknown") = Ok lang /\
       print_transcript py_repr transcript w =
         (Ok tt,
          World (fs w)
            (stdout w ++
               [nl +:+ rule 60;
                "TRANSCRIPT";
                "Duration: " +:+ duration +:+ "  |  Language: " +:+ py_format py_repr lang;
                "Segments: " +:+ str_of_int (Z.of_nat (length segments));
                rule 60 +:+ nl] ++
               lines ++ [nl +:+ rule 60])
            (stderr w))) /\
  (forall py_repr : pyval -> string,
     exists transcript : pyval,
       normalize "talk.wav" two_segment_response = Ok transcript /\
       print_transcript py_repr transcript empty_world =
         (Ok tt,
          World ∅
            [nl +:+ rule 60;
             "TRANSCRIPT";
             "Duration: 0m30s  |  Language: en";
             "Segments: 2";
             rule 60 +:+ nl;
             "[0m00s -> 0m15s]  hello";
             "[0m15s -> 0m30s]  world";
             nl +:+ rule 60]
            [])).
Proof.
  split.
  - intros py_repr transcript segments duration lines w Hsegs Hdur Hlines.
    destruct transcript as [| | | | | |t]; try discriminate.
    eexists. split; [reflexivity|].
    unfold print_transcript.
    cbn [py_get mbind result_bind] in Hdur. cbn [py_get].
    rewrite (bind_lift_ok _ _ _ _ eq_refl), (bind_lift_ok _ _ _ _ eq_refl).
    rewrite !bind_print, (bind_lift_ok _ _ _ _ Hdur), bind_print.
    rewrite Hsegs. cbn [mbind result_bind py_len py_iter].
    rewrite (bind_lift_ok _ _ _ _ eq_refl), !bind_print, (bind_lift_ok _ _ _ _ eq_refl).
    unfold mbind at 1, M_bind.
    rewrite (for_each_lines py_repr _ _ _ Hlines). cbn [fs stdout stderr].
    unfold print. cbn [fs stdout stderr]. f_equal. f_equal.
    rewrite <- !app_assoc. reflexivity.
  - intros py_repr. eexists. split; reflexivity.
Qed.

(** ** The temporary audio file *)

Section TempFiles.

Variable py_repr : pyval -> string.
Variable E : environment.

Lemma preserves_ret {A} (a : A) : preserves_fs (mret a).
Proof. now intros w. Qed.

Lemma preserves_raise {A} (e : exn) : preserves_fs (@raise A e).
Proof. now intros w. Qed.

Lemma preserves_lift {A} (r : result A) : preserves_fs (lift r).
Proof. now intros w. Qed.

Lemma preserves_print s : preserves_fs (print s).
Proof. now intros w. Qed.

Lemma preserves_stat p : preserves_fs (Path.stat_size p).
Proof. intros w. unfold Path.stat_size. now destruct (fs w !! p) as [[]|]. Qed.

Lemma preserves_bind {A B} (m : M A) (k : A -> M B) :
  preserves_fs m -> (forall a, preserves_fs (k a)) -> preserves_fs (m ≫= k).
Proof.
  intros Hm Hk w. unfold mbind, M_bind. specialize (Hm w).
  destruct (m w) as [[a|e] w']; cbn in *; [|assumption].
  now rewrite Hk.
Qed.

Lemma preserves_for_each {A} (l : list A) (body : A -> M unit) :
  (forall x, preserves_fs (body x)) -> preserves_fs (for_each l body).
Proof.
  intros Hbody. induction l as [|x l IH]; cbn [for_each].
  - apply preserves_ret.
  - apply preserves_bind; [apply Hbody | intros _; exact IH].
Qed.

Ltac preserves :=
  repeat first
    [ apply preserves_ret | apply preserves_raise | apply preserves_lift
    | apply preserves_print | apply preserves_stat
    | apply preserves_bind; [|intros ?]
    | apply preserves_for_each; intros ?
    | match goal with
      | |- preserves_fs (match ?x with _ => _ end) => destruct x
      end ].

Lemma transcribe_preserves_fs audio_path api_key :
  preserves_fs (transcribe E audio_path api_key).
Proof. unfold transcribe. preserves. Qed.

Lemma print_transcript_preserves_fs transcript :
  preserves_fs (print_transcript py_repr transcript).
Proof. unfold print_transcript, print_segment. preserves. Qed.

End TempFiles.

Section Cleanup.

Variable py_repr : pyval -> string.
Variable E : environment.
Variable args : arguments.
Variable w : world.

Lemma bind_ret {A B} (a : A) (k : A -> M B) w0 : (mret a ≫= k) w0 = k a w0.
Proof. reflexivity. Qed.

Lemma bind_raise {A B} (e : exn) (k : A -> M B) w0 : (raise e ≫= k) w0 = (Raise e, w0).
Proof. reflexivity. Qed.

Lemma bind_set_fs {B} f (k : unit -> M B) w0 :
  (set_fs f ≫= k) w0 = k tt (World (f (fs w0)) (stdout w0) (stderr w0)).
Proof. reflexivity. Qed.

Lemma bind_exists {B} p (k : bool -> M B) w0 :
  (Path.exists_ p ≫= k) w0 = k (bool_decide (is_Some (fs w0 !! p))) w0.
Proof. reflexivity. Qed.

Lemma bind_assoc {A B C} (m : M A) (f : A -> M B) (g : B -> M C) w0 :
  ((m ≫= f) ≫= g) w0 = (m ≫= fun a => f a ≫= g) w0.
Proof. unfold mbind, M_bind. now destruct (m w0) as [[a|e] w']. Qed.

Lemma join_neq (p : path) (name : string) : Path.join p name <> p.
Proof.
  unfold Path.join. intros H. apply (f_equal (@length string)) in H.
  rewrite length_app in H. cbn in H. lia.
Qed.

Lemma parent_join (p : path) (name : string) : Path.parent (Path.join p name) = p.
Proof. apply removelast_last. Qed.

Lemma extract_audio_fails video_path output_path w0 :
  returncode (env_ffmpeg E) <> 0 ->
  exists msg w',
    extract_audio E video_path output_path w0 = (Raise (RuntimeError msg), w') /\
    fs w' = match written (env_ffmpeg E) with
            | Some size => <[output_path := File size]> (fs w0)
            | None => fs w0
            end.
Proof.
  intros Hrc. unfold extract_audio, run_ffmpeg.
  rewrite bind_print, bind_assoc.
  apply Z.eqb_neq in Hrc.
  destruct (written (env_ffmpeg E)) as [size|].
  - rewrite bind_set_fs; cbv beta. rewrite bind_ret, Hrc. cbn [negb].
    eexists _, _. split; reflexivity.
  - rewrite bind_ret; cbv beta. rewrite bind_ret, Hrc. cbn [negb].
    eexists _, _. split; reflexivity.
Qed.

Lemma extract_audio_succeeds video_path output_path size w0 :
  returncode (env_ffmpeg E) = 0 ->
  written (env_ffmpeg E) = Some size ->
  exists lines,
    extract_audio E video_path output_path w0 =
      (Ok output_path,
       World (<[output_path := File size]> (fs w0)) (stdout w0 ++ lines) (stderr w0)).
Proof.
  intros Hrc Hwr. unfold extract_audio, run_ffmpeg.
  rewrite bind_print, bind_assoc, Hwr, bind_set_fs; cbv beta.
  rewrite bind_ret, Hrc. cbn [Z.eqb negb].
  unfold mbind at 1, M_bind, Path.stat_size. cbn [fs stdout stderr].
  rewrite lookup_insert_eq, bind_print. cbn [fs stdout stderr].
  rewrite <- app_assoc. eexists. reflexivity.
Qed.

Hypothesis Hpre : preconditions_hold E args w.
Hypothesis Hkeep : arg_keep_audio args = false.

(** Without [--keep-audio] a failing transcoder ends the run before the
    [try] block: the temporary directory is still there. *)
Lemma main_leaks_on_transcode_failure :
  returncode (env_ffmpeg E) <> 0 ->
  exists msg w',
    main py_repr E args w = (Raise (RuntimeError msg), w') /\
    fs w' !! env_mkdtemp E = Some Dir.
Proof.
  intros Hrc. destruct Hpre as (Hvideo & (c & key & Hkey) & Hff).
  unfold main. rewrite bind_exists, (bool_decide_eq_true_2 _ Hvideo).
  cbn [negb]. rewrite bind_ret, Hkey, bind_ret.
  unfold check_ffmpeg. rewrite Hff, bind_ret, Hkeep.
  rewrite bind_assoc, bind_set_fs; cbv beta. rewrite bind_assoc.
  match goal with
  | |- context [extract_audio E ?v ?o ≫= ?k] =>
      destruct (extract_audio_fails v o
                  (World (<[env_mkdtemp E:=Dir]> (fs w)) (stdout w) (stderr w)) Hrc)
        as (msg & w' & Hex & Hfs)
  end.
  exists msg, w'. unfold mbind at 1, M_bind. rewrite Hex. split; [reflexivity|].
  rewrite Hfs. cbn [fs].
  destruct (written (env_ffmpeg E)).
  - rewrite lookup_insert_ne by apply join_neq. apply lookup_insert_eq.
  - apply lookup_insert_eq.
Qed.

(** The [finally] block on a world that holds the WAV file in a directory
    with no other entry. *)
Lemma finally_block_removes (tmp : path) (name : string) (w2 : world) (n : node) :
  let audio := Path.join tmp name in
  fs w2 !! audio = Some n -> n <> Dir ->
  fs w2 !! tmp = Some Dir ->
  (forall q x, fs w2 !! q = Some x -> q <> audio -> ¬ Path.child_of tmp q) ->
  (found ← Path.exists_ audio;
   if negb false && found
   then Path.unlink audio;; Path.rmdir (Path.parent audio)
   else mret tt) w2 =
    (Ok tt, World (delete tmp (delete audio (fs w2))) (stdout w2) (stderr w2)).
Proof.
  intros audio Ha Hn Ht Hothers.
  replace (Path.parent audio) with tmp by (symmetry; apply parent_join).
  rewrite bind_exists, bool_decide_eq_true_2 by (now rewrite Ha).
  cbn [negb andb]. unfold mbind, M_bind, Path.unlink. rewrite Ha.
  assert (set_fs (delete audio) w2 =
            (Ok tt, World (delete audio (fs w2)) (stdout w2) (stderr w2))) as Hdel
    by reflexivity.
  replace (match n with Dir => (Raise OSError, w2) | _ => set_fs (delete audio) w2 end)
    with (set_fs (delete audio) w2) by (now destruct n).
  rewrite Hdel. unfold Path.rmdir. cbn [fs stdout stderr].
  rewrite lookup_delete_ne, Ht by apply join_neq.
  destruct (decide _) as [_|Hno]; [reflexivity|].
  exfalso. apply Hno. intros q x [Hqa Hq]%lookup_delete_Some. eauto.
Qed.

(** The body of the [try] block writes at most the transcript. *)
Lemma try_body_fs audio_path api_key out w1 :
  let body :=
    transcript ← transcribe E audio_path api_key;
    save_json E out transcript;;
    print (nl +:+ "Transcript saved to: " +:+ render_path out);;
    print_transcript py_repr transcript in
  exists r w2,
    body w1 = (r, w2) /\
    (fs w2 = fs w1 \/ exists transcript, fs w2 = <[out := Document transcript]> (fs w1)).
Proof.
  cbv zeta. unfold mbind at 1, M_bind.
  pose proof (transcribe_preserves_fs E audio_path api_key w1) as Ht.
  destruct (transcribe E audio_path api_key w1) as [[transcript|e] wa];
    cbn [snd] in *; [|eexists _, _; split; [reflexivity | now left]].
  unfold save_json. destruct (env_open_output E) as [e|].
  - rewrite bind_raise. eexists _, _; split; [reflexivity | now left].
  - rewrite bind_set_fs; cbv beta. rewrite bind_print; cbv beta.
    pose proof (print_transcript_preserves_fs py_repr transcript) as Hp.
    match goal with |- context [print_transcript py_repr transcript ?w0] =>
      specialize (Hp w0); destruct (print_transcript py_repr transcript w0) as [r w2]
    end.
    cbn [snd fs] in Hp. exists r, w2. split; [reflexivity|]. right.
    exists transcript. now rewrite Hp, Ht.
Qed.

Hypothesis Hrc : returncode (env_ffmpeg E) = 0.
Variable size : Z.
Hypothesis Hwritten : written (env_ffmpeg E) = Some size.
Hypothesis Hfresh : fs w !! env_mkdtemp E = None.
Hypothesis Hempty : map_Forall (fun q _ => ¬ Path.child_of (env_mkdtemp E) q) (fs w).
Hypothesis Hout : output_path_of args <> env_mkdtemp E.
Hypothesis Hout_child : ¬ Path.child_of (env_mkdtemp E) (output_path_of args).

(** Once the audio is extracted, every way out of the [try] block removes
    the WAV file and its directory: what is left is the file system of
    before, with at most the transcript added. *)
Lemma main_cleans_up_after_extraction :
  exists r w',
    main py_repr E args w = (r, w') /\
    (fs w' = fs w \/
     exists transcript, fs w' = <[output_path_of args := Document transcript]> (fs w)) /\
    fs w' !! env_mkdtemp E = None /\
    fs w' !! temp_audio_path E args = None.
Proof.
  destruct Hpre as (Hvideo & (c & key & Hkey) & Hff).
  set (tmp := env_mkdtemp E) in *. set (out := output_path_of args) in *.
  set (audio := temp_audio_path E args).
  assert (audio <> tmp) as Hat by apply join_neq.
  assert (Path.child_of tmp audio) as Hchild.
  { split; [|apply parent_join].
    unfold audio, temp_audio_path, Path.join. now destruct (env_mkdtemp E). }
  assert (fs w !! audio = None) as Haudio.
  { destruct (fs w !! audio) eqn:Hl; [|reflexivity]. now destruct (Hempty _ _ Hl). }
  assert (out <> audio) as Hoa by (now intros ->).
  unfold main. rewrite bind_exists, (bool_decide_eq_true_2 _ Hvideo).
  cbn [negb]. rewrite bind_ret, Hkey, bind_ret.
  unfold check_ffmpeg. rewrite Hff, bind_ret, Hkeep.
  rewrite bind_assoc, bind_set_fs; cbv beta. rewrite bind_assoc.
  change (match arg_output args with
          | Some p => p
          | None => Path.join (Path.parent (arg_video args))
                      (Path.stem (arg_video args) +:+ "_transcript.json")
          end) with out.
  change (Path.join (env_mkdtemp E) (Path.stem (arg_video args) +:+ ".wav")) with audio.
  fold tmp.
  destruct (extract_audio_succeeds (arg_video args) audio size
              (World (<[tmp:=Dir]> (fs w)) (stdout w) (stderr w)) Hrc Hwritten)
    as [lines Hex].
  unfold mbind at 1, M_bind. rewrite Hex. cbn [fs stdout stderr]. rewrite bind_ret.
  unfold try_finally.
  match goal with
  | |- context [let '(_, _) := _ ?w1 in _] =>
      destruct (try_body_fs audio (String c key) out w1) as (r & w2 & Hrun & Hbody)
  end.
  cbv zeta in Hrun. cbn [fs] in Hbody.
  assert (exists n, fs w2 !! audio = Some n /\ n <> Dir) as (n & Hn & Hnd).
  { destruct Hbody as [->|[t ->]].
    - exists (File size). now rewrite lookup_insert_eq.
    - exists (File size). rewrite lookup_insert_ne by congruence.
      now rewrite lookup_insert_eq. }
  assert (fs w2 !! tmp = Some Dir) as Htmp.
  { destruct Hbody as [->|[t ->]].
    - rewrite lookup_insert_ne by congruence. apply lookup_insert_eq.
    - rewrite !lookup_insert_ne by congruence. apply lookup_insert_eq. }
  assert (¬ Path.child_of tmp tmp) as Hself.
  { intros [Hnil Hp]. apply (f_equal (@length string)) in Hp.
    unfold Path.parent in Hp. destruct tmp as [|x l] using rev_ind; [easy|].
    rewrite removelast_last, length_app in Hp. cbn in Hp. lia. }
  assert (forall q x, fs w2 !! q = Some x -> q <> audio -> ¬ Path.child_of tmp q) as Hothers.
  { intros q x Hq Hqa. destruct Hbody as [Hfs|[t Hfs]]; rewrite Hfs in Hq.
    - rewrite lookup_insert_ne in Hq by congruence.
      destruct (decide (q = tmp)) as [->|Hqt]; [assumption|].
      rewrite lookup_insert_ne in Hq by congruence. now apply (Hempty _ _ Hq).
    - destruct (decide (q = out)) as [->|Hqo]; [assumption|].
      rewrite lookup_insert_ne in Hq by congruence.
      rewrite lookup_insert_ne in Hq by congruence.
      destruct (decide (q = tmp)) as [->|Hqt]; [assumption|].
      rewrite lookup_insert_ne in Hq by congruence. now apply (Hempty _ _ Hq). }
  pose proof (finally_block_removes tmp _ w2 n Hn Hnd Htmp Hothers) as Hfin.
  cbv zeta in Hfin. fold audio in Hfin.
  eexists _, _. split.
  { match goal with
    | |- (let '(_, _) := ?b in _) = _ => replace b with (r, w2) by (symmetry; exact Hrun)
    end.
    cbv beta iota.
    match goal with
    | |- (let '(_, _) := ?b in _) = _ =>
        replace b with (Ok tt, World (delete tmp (delete audio (fs w2))) (stdout w2) (stderr w2))
          by (symmetry; exact Hfin)
    end.
    reflexivity. }
  cbn [fs].
  assert (delete tmp (delete audio (<[audio:=File size]> (<[tmp:=Dir]> (fs w)))) = fs w)
    as Hbase.
  { rewrite delete_insert_eq, delete_insert_ne, delete_insert_eq by congruence.
    rewrite (delete_id _ audio) by exact Haudio. now apply delete_id. }
  destruct Hbody as [->|[t ->]].
  - rewrite Hbase. split; [now left|]. now split.
  - rewrite !delete_insert_ne, Hbase by congruence. split; [right; eauto|].
    rewrite !lookup_insert_ne by congruence. now split.
Qed.

End Cleanup.

(** C1: without [--keep-audio], a transcoder failure leaves the temporary
    directory behind: the run ends with the transcoder's error and the
    directory [mkdtemp] made, absent before the run, is still there. *)
Theorem temp_dir_left_after_failed_transcode (py_repr : pyval -> string) :
  let args := Arguments video_talk None false in
  exists (msg : string) (w' : world),
    main py_repr failing_transcode args world_with_video = (Raise (RuntimeError msg), w') /\
    fs world_with_video !! tmp_talk = None /\
    fs w' !! tmp_talk = Some Dir.
Proof.
  intros args.
  destruct (main_leaks_on_transcode_failure py_repr failing_transcode args world_with_video)
    as (msg & w' & Hrun & Hleft).
  - split; [|split].
    + vm_compute. eauto.
    + exists "s"%char, "ecret". reflexivity.
    + reflexivity.
  - reflexivity.
  - discriminate.
  - exists msg, w'. split; [exact Hrun|]. split; [|exact Hleft]. now vm_compute.
Qed.

(** ** Binary64 rounding *)

Section Rounding.


Lemma digits2_pos_size p : digits2_pos p = Pos.size p.
Proof. induction p; cbn; congruence. Qed.

Lemma Zdigits2_bounds m : 0 < m -> 2 ^ (Zdigits2 m - 1) <= m < 2 ^ Zdigits2 m.
Proof.
  destruct m as [|p|p]; try lia. intros _. cbn [Zdigits2].
  rewrite digits2_pos_size.
  pose proof (Pos.size_gt p) as Hgt. pose proof (Pos.size_le p) as Hle.
  apply Pos2Z.pos_lt_pos in Hgt. apply Pos2Z.pos_le_pos in Hle.
  rewrite Pos2Z.inj_pow in Hgt, Hle. change (Z.pos p~0) with (2 * Z.pos p) in Hle.
  split; [|exact Hgt].
  replace (Z.pos (Pos.size p)) with (Z.succ (Z.pos (Pos.size p) - 1)) in Hle by lia.
  rewrite Z.pow_succ_r in Hle by lia. lia.
Qed.

Lemma Zdigits2_unique m d : 2 ^ (d - 1) <= m < 2 ^ d -> 0 < m -> Zdigits2 m = d.
Proof.
  intros [Hlo Hhi] Hm. pose proof (Zdigits2_bounds m Hm) as [Hlo' Hhi'].
  assert (0 < Zdigits2 m) by (destruct m; cbn; lia).
  assert (0 <= d).
  { destruct (Z.leb_spec 0 d); [assumption|]. rewrite Z.pow_neg_r in Hhi by lia. lia. }
  destruct (Z.lt_trichotomy (Zdigits2 m) d) as [Hlt|[Heq|Hgt]]; [|assumption|].
  - assert (2 ^ Zdigits2 m <= 2 ^ (d - 1)) by (apply Z.pow_le_mono_r; lia). lia.
  - assert (2 ^ d <= 2 ^ (Zdigits2 m - 1)) by (apply Z.pow_le_mono_r; lia). lia.
Qed.

Lemma shr_1_m r : 0 <= shr_m r -> shr_m (shr_1 r) = shr_m r / 2.
Proof.
  destruct r as [m rb sb]. cbn [shr_m shr_1].
  destruct m as [|[p|p|]|p]; cbn [shr_m]; intros Hm; try lia;
    Z.to_euclidean_division_equations; lia.
Qed.

Lemma pow2_xO p : 2 ^ Z.pos p~0 = 2 ^ Z.pos p * 2 ^ Z.pos p.
Proof.
  change (Z.pos p~0) with (2 * Z.pos p).
  replace (2 * Z.pos p) with (Z.pos p + Z.pos p) by lia.
  apply Z.pow_add_r; lia.
Qed.

Lemma pow2_xI p : 2 ^ Z.pos p~1 = 2 * (2 ^ Z.pos p * 2 ^ Z.pos p).
Proof.
  change (Z.pos p~1) with (2 * Z.pos p + 1).
  replace (2 * Z.pos p + 1) with (1 + (Z.pos p + Z.pos p)) by lia.
  rewrite Z.pow_add_r, Z.pow_add_r by lia. reflexivity.
Qed.

Lemma iter_shr_1_m p : forall r,
  0 <= shr_m r -> shr_m (SpecFloat.iter_pos shr_1 p r) = shr_m r / 2 ^ Zpos p.
Proof.
  assert (forall q, 0 < 2 ^ Z.pos q) as Hpow by (intros; apply Z.pow_pos_nonneg; lia).
  induction p as [p IH|p IH|]; intros r Hr; cbn [SpecFloat.iter_pos].
  - assert (0 <= shr_m (shr_1 r)) by (rewrite shr_1_m by assumption; apply Z.div_pos; lia).
    assert (0 <= shr_m (SpecFloat.iter_pos shr_1 p (shr_1 r))).
    { rewrite IH by assumption. apply Z.div_pos; [lia | apply Hpow]. }
    rewrite IH, IH, shr_1_m by assumption.
    pose proof (Hpow p).
    rewrite !Z.div_div by lia. f_equal. rewrite pow2_xI. lia.
  - assert (0 <= shr_m (SpecFloat.iter_pos shr_1 p r)).
    { rewrite IH by assumption. apply Z.div_pos; [lia | apply Hpow]. }
    rewrite IH, IH by assumption. pose proof (Hpow p).
    rewrite Z.div_div by lia. f_equal. now rewrite pow2_xO.
  - rewrite shr_1_m by assumption. reflexivity.
Qed.

Lemma shr_record_of_loc_m m l : shr_m (shr_record_of_loc m l) = m.
Proof. destruct l as [|[]]; reflexivity. Qed.

Lemma digits_ge_53 m : 2 ^ 52 <= m -> 53 <= Zdigits2 m.
Proof.
  intros Hm. assert (0 < m) as Hpos by lia.
  pose proof (Zdigits2_bounds m Hpos) as [_ Hhi].
  destruct (Z.leb_spec 53 (Zdigits2 m)); [assumption|].
  assert (2 ^ Zdigits2 m <= 2 ^ 52) by (apply Z.pow_le_mono_r; lia). lia.
Qed.

(** [shr_fexp] on a mantissa of at least 53 bits, away from the subnormal
    range: the mantissa loses the bits beyond 53. *)
Lemma shr_fexp_normal m e l :
  2 ^ 52 <= m -> -1074 <= e ->
  shr_m (fst (shr_fexp 53 1024 m e l)) = m / 2 ^ (Zdigits2 m - 53) /\
  snd (shr_fexp 53 1024 m e l) = e + (Zdigits2 m - 53).
Proof.
  intros Hm He. pose proof (digits_ge_53 m Hm) as Hd.
  unfold shr_fexp, fexp, emin.
  replace (Z.max (Zdigits2 m + e - 53) (3 - 1024 - 53) - e) with (Zdigits2 m - 53) by lia.
  unfold shr. destruct (Zdigits2 m - 53) as [|p|p] eqn:Hn; try lia; cbn [fst snd].
  - rewrite shr_record_of_loc_m. change (2 ^ 0) with 1. rewrite Z.div_1_r. lia.
  - rewrite iter_shr_1_m; rewrite shr_record_of_loc_m; [split; reflexivity | lia].
Qed.

Lemma round_nearest_even_cases m l :
  round_nearest_even m l = m \/ round_nearest_even m l = m + 1.
Proof. destruct l as [|[]]; cbn; auto. destruct (Z.even m); auto. Qed.

Lemma truncated_mantissa m :
  2 ^ 52 <= m ->
  let n := Zdigits2 m - 53 in
  0 <= n /\ 0 < 2 ^ n /\ 2 ^ 52 <= m / 2 ^ n < 2 ^ 53.
Proof.
  intros Hm n. pose proof (digits_ge_53 m Hm) as Hd.
  assert (0 < m) as Hpos by lia. pose proof (Zdigits2_bounds m Hpos) as [Hlo Hhi].
  assert (0 <= n) as Hn by (unfold n; lia).
  assert (0 < 2 ^ n) as Hp by (apply Z.pow_pos_nonneg; lia).
  split; [assumption|]. split; [assumption|].
  replace (Zdigits2 m - 1) with (52 + n) in Hlo by (unfold n; lia).
  replace (Zdigits2 m) with (53 + n) in Hhi by (unfold n; lia).
  rewrite Z.pow_add_r in Hlo, Hhi by lia. split.
  - apply Z.div_le_lower_bound; lia.
  - apply Z.div_lt_upper_bound; lia.
Qed.

(** Rounding is faithful: away from overflow and from the subnormal range,
    [binary_round_aux] returns a normal float that is the truncation of its
    argument to 53 bits, or the next float up. *)
Lemma binary_round_aux_faithful mx ex lx :
  2 ^ 52 <= mx -> -1074 <= ex -> ex + (Zdigits2 mx - 53) < 971 ->
  let n := Zdigits2 mx - 53 in
  exists m e,
    binary_round_aux 53 1024 false mx ex lx = S754_finite false m e /\
    2 ^ 52 <= Zpos m < 2 ^ 53 /\
    ex + n <= e <= ex + n + 1 /\
    (Zpos m * 2 ^ (e - ex) = mx / 2 ^ n * 2 ^ n \/
     Zpos m * 2 ^ (e - ex) = (mx / 2 ^ n + 1) * 2 ^ n).
Proof.
  intros Hm He Hmax n.
  destruct (truncated_mantissa mx Hm) as (Hn & Hp & Ha). fold n in Hn, Hp, Ha.
  unfold binary_round_aux.
  pose proof (shr_fexp_normal mx ex lx Hm He) as [H1m H1e]. fold n in H1m, H1e.
  destruct (shr_fexp 53 1024 mx ex lx) as [mrs' e']. cbn [fst snd] in H1m, H1e.
  rewrite H1m. set (a := mx / 2 ^ n) in *. subst e'.
  set (m2 := round_nearest_even a (loc_of_shr_record mrs')).
  assert (m2 = a \/ m2 = a + 1) as Hm2 by apply round_nearest_even_cases.
  assert (2 ^ 52 <= m2) as Hm2lo by lia.
  pose proof (shr_fexp_normal m2 (ex + n) loc_Exact Hm2lo ltac:(lia)) as [H2m H2e].
  destruct (shr_fexp 53 1024 m2 (ex + n) loc_Exact) as [mrs2 e2]. cbn [fst snd] in H2m, H2e.
  assert (Zdigits2 m2 - 53 = 0 /\ m2 < 2 ^ 53 \/ Zdigits2 m2 - 53 = 1 /\ m2 = 2 ^ 53) as Hcase.
  { destruct (Z.ltb_spec m2 (2 ^ 53)) as [Hlt|Hge].
    - left. split; [|assumption]. rewrite (Zdigits2_unique m2 53); [reflexivity | | lia].
      change (53 - 1) with 52. lia.
    - right. assert (m2 = 2 ^ 53) as -> by lia. split; reflexivity. }
  destruct Hcase as [[Hd Hlt]|[Hd Heq]]; rewrite Hd in H2m, H2e.
  - change (2 ^ 0) with 1 in H2m. rewrite Z.div_1_r in H2m. rewrite H2m.
    destruct m2 as [|pm|pm] eqn:Epm; try lia.
    assert ((e2 <=? 1024 - 53) = true) as -> by (apply Z.leb_le; lia).
    exists pm, e2. split; [reflexivity|]. split; [lia|]. split; [lia|].
    replace (e2 - ex) with n by lia. destruct Hm2 as [->| ->]; auto.
  - rewrite H2m, Heq. change (2 ^ 53 / 2 ^ 1) with (Z.pos 4503599627370496).
    assert ((e2 <=? 1024 - 53) = true) as -> by (apply Z.leb_le; lia).
    exists 4503599627370496%positive, e2. split; [reflexivity|]. split; [lia|]. split; [lia|].
    replace (e2 - ex) with (1 + n) by lia. rewrite Z.pow_add_r by lia.
    right. assert (a + 1 = 2 ^ 53) as -> by (destruct Hm2; lia).
    rewrite Z.mul_assoc. reflexivity.
Qed.

(** The same, as a relative error.  The rounded argument stands for the
    rational [N / D], in units of [2 ^ ex], of which [mx] is the integer
    part; the result, in the same units, is within [N / D * 2 ^ -52] of it. *)
Lemma binary_round_aux_relative mx ex lx N D :
  2 ^ 52 <= mx -> -1074 <= ex -> ex + (Zdigits2 mx - 53) < 971 ->
  0 < D -> D * mx <= N < D * (mx + 1) ->
  exists m e,
    binary_round_aux 53 1024 false mx ex lx = S754_finite false m e /\
    2 ^ 52 <= Zpos m < 2 ^ 53 /\
    ex <= e <= ex + (Zdigits2 mx - 53) + 1 /\
    (2 ^ 52 - 1) * N <= 2 ^ 52 * (Zpos m * 2 ^ (e - ex) * D) <= (2 ^ 52 + 1) * N.
Proof.
  intros Hm He Hmax HD HN.
  destruct (binary_round_aux_faithful mx ex lx Hm He Hmax) as (m & e & Hr & Hnorm & Hex & HR).
  destruct (truncated_mantissa mx Hm) as (Hn & Hp & Ha).
  exists m, e. split; [exact Hr|]. split; [exact Hnorm|]. split; [lia|].
  set (n := Zdigits2 mx - 53) in *. set (P := 2 ^ n) in *. set (a := mx / P) in *.
  set (R := Z.pos m * 2 ^ (e - ex)) in *.
  assert (a * P <= mx < (a + 1) * P) as Hmx.
  { pose proof (Z.div_mod mx P ltac:(lia)). pose proof (Z.mod_pos_bound mx P Hp).
    fold a in H. lia. }
  change (2 ^ 52) with 4503599627370496 in *.
  assert (4503599627370496 * (P * D) <= a * P * D) as HPD.
  { rewrite <- Z.mul_assoc. apply Z.mul_le_mono_nonneg_r; nia. }
  assert (a * P * D <= N < (a * P + P) * D) as HND.
  { split.
    - apply Z.le_trans with (D * mx); [|lia]. nia.
    - apply Z.lt_le_trans with (D * (mx + 1)); [lia|]. nia. }
  set (A := a * P * D) in *. set (PD := P * D) in *.
  replace ((a * P + P) * D) with (A + PD) in HND by (unfold A, PD; ring).
  destruct HR as [->| ->].
  - fold A. lia.
  - replace ((a + 1) * P * D) with (A + PD) by (unfold A, PD; ring). lia.
Qed.

Lemma b64_mul_relative m1 e1 m2 e2 :
  2 ^ 52 <= Zpos m1 < 2 ^ 53 -> 2 ^ 52 <= Zpos m2 < 2 ^ 53 ->
  -1074 <= e1 + e2 -> e1 + e2 < 900 ->
  exists m e,
    SFmul 53 1024 (S754_finite false m1 e1) (S754_finite false m2 e2) = S754_finite false m e /\
    2 ^ 52 <= Zpos m < 2 ^ 53 /\
    e1 + e2 <= e <= e1 + e2 + 54 /\
    (2 ^ 52 - 1) * (Zpos m1 * Zpos m2)
      <= 2 ^ 52 * (Zpos m * 2 ^ (e - (e1 + e2)))
      <= (2 ^ 52 + 1) * (Zpos m1 * Zpos m2).
Proof.
  intros H1 H2 Hlo Hhi. cbn [SFmul xorb]. rewrite Pos2Z.inj_mul.
  set (mx := Z.pos m1 * Z.pos m2).
  change (2 ^ 52) with 4503599627370496 in *. change (2 ^ 53) with 9007199254740992 in *.
  assert (4503599627370496 * 4503599627370496 <= mx < 9007199254740992 * 9007199254740992)
    as Hmx by (unfold mx; nia).
  assert (Zdigits2 mx <= 106) as Hd.
  { pose proof (Zdigits2_bounds mx ltac:(lia)) as [Hlo' _].
    destruct (Z.leb_spec (Zdigits2 mx) 106); [assumption|].
    assert (2 ^ 106 <= 2 ^ (Zdigits2 mx - 1)) by (apply Z.pow_le_mono_r; lia).
    change (2 ^ 106) with (9007199254740992 * 9007199254740992) in H0. lia. }
  destruct (binary_round_aux_relative mx (e1 + e2) loc_Exact mx 1)
    as (m & e & Hr & Hnorm & He & Hrel); try lia.
  exists m, e. split; [exact Hr|]. split; [exact Hnorm|]. split; [lia|].
  rewrite Z.mul_1_r in Hrel. exact Hrel.
Qed.

Lemma b64_div_relative m1 e1 m2 e2 :
  2 ^ 52 <= Zpos m1 < 2 ^ 53 -> 2 ^ 52 <= Zpos m2 < 2 ^ 53 ->
  -1021 <= e1 - e2 -> e1 - e2 < 900 ->
  exists m e,
    SFdiv 53 1024 (S754_finite false m1 e1) (S754_finite false m2 e2) = S754_finite false m e /\
    2 ^ 52 <= Zpos m < 2 ^ 53 /\
    e1 - e2 - 53 <= e <= e1 - e2 - 51 /\
    (2 ^ 52 - 1) * (Zpos m1 * 2 ^ 53)
      <= 2 ^ 52 * (Zpos m * 2 ^ (e - (e1 - e2 - 53)) * Zpos m2)
      <= (2 ^ 52 + 1) * (Zpos m1 * 2 ^ 53).
Proof.
  intros H1 H2 Hlo Hhi. cbn [SFdiv xorb]. unfold SFdiv_core_binary.
  rewrite (Zdigits2_unique (Z.pos m1) 53), (Zdigits2_unique (Z.pos m2) 53) by (cbn; lia).
  unfold fexp, emin.
  replace (Z.min (Z.max (53 + e1 - (53 + e2) - 53) (3 - 1024 - 53)) (e1 - e2))
    with (e1 - e2 - 53) by lia.
  replace (e1 - e2 - (e1 - e2 - 53)) with 53 by lia.
  cbv beta iota zeta.
  rewrite Z.shiftl_mul_pow2 by lia.
  set (N := Z.pos m1 * 2 ^ 53).
  pose proof (Z.div_mod N (Z.pos m2) ltac:(lia)) as Hdm.
  pose proof (Z.mod_pos_bound N (Z.pos m2) ltac:(lia)) as Hmod.
  unfold Z.div, Z.modulo in Hdm, Hmod.
  destruct (Z.div_eucl N (Z.pos m2)) as [q r]. cbn [fst snd] in Hdm, Hmod.
  change (2 ^ 52) with 4503599627370496 in *. change (2 ^ 53) with 9007199254740992 in *.
  assert (4503599627370496 <= q < 4 * 4503599627370496) as Hq by (unfold N in Hdm; nia).
  assert (Zdigits2 q <= 54) as Hd.
  { pose proof (Zdigits2_bounds q ltac:(lia)) as [Hlo' _].
    destruct (Z.leb_spec (Zdigits2 q) 54); [assumption|].
    assert (2 ^ 54 <= 2 ^ (Zdigits2 q - 1)) by (apply Z.pow_le_mono_r; lia).
    change (2 ^ 54) with (4 * 4503599627370496) in H0. lia. }
  destruct (binary_round_aux_relative q (e1 - e2 - 53) (new_location (Z.pos m2) r) N (Z.pos m2))
    as (m & e & Hr & Hnorm & He & Hrel); try lia.
  exists m, e. split; [exact Hr|]. split; [exact Hnorm|]. split; [lia|]. exact Hrel.
Qed.

(** A normal mantissa with an exact location is returned as it is. *)
Lemma binary_round_aux_exact m e :
  2 ^ 52 <= Zpos m < 2 ^ 53 -> -1074 <= e <= 971 ->
  binary_round_aux 53 1024 false (Zpos m) e loc_Exact = S754_finite false m e.
Proof.
  intros Hm He. unfold binary_round_aux, shr_fexp.
  rewrite (Zdigits2_unique (Z.pos m) 53) by (cbn; lia).
  unfold fexp, emin. replace (Z.max (53 + e - 53) (3 - 1024 - 53) - e) with 0 by lia.
  cbn [shr shr_record_of_loc shr_m loc_of_shr_record round_nearest_even].
  rewrite (Zdigits2_unique (Z.pos m) 53) by (cbn; lia).
  replace (Z.max (53 + e - 53) (3 - 1024 - 53) - e) with 0 by lia.
  cbn [shr shr_record_of_loc shr_m].
  assert ((e <=? 1024 - 53) = true) as -> by (apply Z.leb_le; lia). reflexivity.
Qed.

Lemma iter_xO_value m k : Zpos (Pos.iter xO m k) = Zpos m * 2 ^ Zpos k.
Proof.
  induction k as [|k IH] using Pos.peano_ind.
  - change (Z.pos (Pos.iter xO m 1)) with (2 * Z.pos m). change (2 ^ 1) with 2. lia.
  - rewrite Pos.iter_succ, Pos2Z.inj_succ, Z.pow_succ_r by lia.
    change (Z.pos (Pos.iter xO m k)~0) with (2 * Z.pos (Pos.iter xO m k)). lia.
Qed.

(** An integer below [2 ^ 53] converts to the float of the same value. *)
Lemma float_of_int_exact z :
  0 < z < 2 ^ 53 ->
  exists m e,
    float_of_int z = S754_finite false m e /\
    2 ^ 52 <= Zpos m < 2 ^ 53 /\ -52 <= e <= 0 /\
    Zpos m = z * 2 ^ (- e).
Proof.
  intros Hz. destruct z as [|p|p]; try lia.
  unfold float_of_int, binary_normalize, binary_round.
  pose proof (Zdigits2_bounds (Z.pos p) ltac:(lia)) as [Hlo Hhi].
  cbn [Zdigits2] in Hlo, Hhi. set (d := Z.pos (digits2_pos p)) in *.
  assert (0 < d <= 53) as Hd.
  { split; [unfold d; lia|]. destruct (Z.leb_spec d 53); [assumption|].
    assert (2 ^ 53 <= 2 ^ (d - 1)) by (apply Z.pow_le_mono_r; lia). lia. }
  unfold fexp, emin. replace (Z.max (d + 0 - 53) (3 - 1024 - 53)) with (d - 53) by lia.
  unfold shl_align. replace (d - 53 - 0) with (d - 53) by lia.
  destruct (d - 53) as [|k|k] eqn:Hk; try lia.
  - exists p, 0. assert (d = 53) as Hd53 by lia. rewrite Hd53 in Hlo, Hhi.
    change (53 - 1) with 52 in Hlo.
    rewrite binary_round_aux_exact by lia.
    split; [reflexivity|]. split; [lia|]. split; [lia|]. cbn. lia.
  - assert (Z.pos (Pos.iter xO p k) = Z.pos p * 2 ^ Z.pos k) as Hv by apply iter_xO_value.
    assert (0 < 2 ^ Z.pos k) as Hpk by (apply Z.pow_pos_nonneg; lia).
    assert (2 ^ (d - 1) * 2 ^ Z.pos k = 2 ^ 52 /\ 2 ^ d * 2 ^ Z.pos k = 2 ^ 53) as [E52 E53].
    { rewrite <- !Z.pow_add_r by lia. split; f_equal; lia. }
    exists (Pos.iter xO p k), (Z.neg k).
    rewrite binary_round_aux_exact by (rewrite ?Hv; nia).
    split; [reflexivity|]. split; [rewrite Hv; nia|]. split; [lia|]. exact Hv.
Qed.

End Rounding.

(** ** Values *)

Section Values.

Local Open Scope Q_scope.

Lemma bpow_pos (e : Z) : 0 < 2 ^ e.
Proof. now apply Qpower_0_lt. Qed.

Lemma float_value_bpow m e :
  float_value (S754_finite false m e) == inject_Z (Zpos m) * 2 ^ e.
Proof.
  cbn [float_value cond_Zopp]. destruct e as [|p|p].
  - rewrite Z.mul_1_r, Qpower_0_r. ring.
  - rewrite inject_Z_mult, Zpower_Qpower by lia. reflexivity.
  - rewrite Qmake_Qdiv. change (Z.neg p) with (- Z.pos p)%Z. rewrite Qpower_opp.
    rewrite Pos2Z.inj_pow, Zpower_Qpower by lia. reflexivity.
Qed.

(** A mantissa-and-exponent pair in units of a smaller power of two. *)
Lemma float_value_units m e ex :
  (ex <= e)%Z ->
  float_value (S754_finite false m e) == inject_Z (Zpos m * 2 ^ (e - ex)) * 2 ^ ex.
Proof.
  intros He. rewrite float_value_bpow, inject_Z_mult, Zpower_Qpower by lia.
  rewrite <- Qmult_assoc, <- Qpower_plus by discriminate.
  replace (e - ex + ex)%Z with e by lia. reflexivity.
Qed.

Lemma scale_le (a b : Z) (t : Q) : (a <= b)%Z -> 0 < t -> inject_Z a * t <= inject_Z b * t.
Proof.
  intros Hab Ht. apply Qmult_le_compat_r; [|now apply Qlt_le_weak].
  now rewrite <- Zle_Qle.
Qed.

(** Division of normal floats: the quotient is within [2 ^ -52], relatively,
    of the exact quotient of the values. *)
Lemma b64_div_value m1 e1 m2 e2 :
  (2 ^ 52 <= Zpos m1 < 2 ^ 53)%Z -> (2 ^ 52 <= Zpos m2 < 2 ^ 53)%Z ->
  (-1021 <= e1 - e2)%Z -> (e1 - e2 < 900)%Z ->
  exists m e,
    SFdiv 53 1024 (S754_finite false m1 e1) (S754_finite false m2 e2) = S754_finite false m e /\
    (2 ^ 52 <= Zpos m < 2 ^ 53)%Z /\
    (e1 - e2 - 53 <= e <= e1 - e2 - 51)%Z /\
    let v1 := float_value (S754_finite false m1 e1) in
    let v2 := float_value (S754_finite false m2 e2) in
    let v := float_value (S754_finite false m e) in
    inject_Z (2 ^ 52 - 1) * v1 <= inject_Z (2 ^ 52) * (v * v2) /\
    inject_Z (2 ^ 52) * (v * v2) <= inject_Z (2 ^ 52 + 1) * v1.
Proof.
  intros H1 H2 Hlo Hhi.
  destruct (b64_div_relative m1 e1 m2 e2 H1 H2 Hlo Hhi) as (m & e & Hr & Hnorm & He & Hrel).
  exists m, e. split; [exact Hr|]. split; [exact Hnorm|]. split; [exact He|].
  cbv zeta. set (ex := (e1 - e2 - 53)%Z) in *.
  set (R := (Z.pos m * 2 ^ (e - ex))%Z) in *.
  set (N := (Z.pos m1 * 2 ^ 53)%Z) in *.
  assert (float_value (S754_finite false m1 e1) == inject_Z N * 2 ^ (e1 - 53)) as E1.
  { rewrite (float_value_units m1 e1 (e1 - 53)) by lia.
    replace (e1 - (e1 - 53))%Z with 53%Z by lia. reflexivity. }
  assert (float_value (S754_finite false m e) * float_value (S754_finite false m2 e2)
          == inject_Z (R * Z.pos m2) * 2 ^ (e1 - 53)) as E2.
  { rewrite (float_value_units m e ex) by lia. fold R.
    rewrite (float_value_bpow m2 e2), inject_Z_mult.
    replace (e1 - 53)%Z with (ex + e2)%Z by (unfold ex; lia).
    rewrite Qpower_plus by discriminate. ring. }
  rewrite E1, E2, !Qmult_assoc, <- !inject_Z_mult.
  split; apply scale_le; try apply bpow_pos; lia.
Qed.

(** Multiplication of normal floats, likewise. *)
Lemma b64_mul_value m1 e1 m2 e2 :
  (2 ^ 52 <= Zpos m1 < 2 ^ 53)%Z -> (2 ^ 52 <= Zpos m2 < 2 ^ 53)%Z ->
  (-1074 <= e1 + e2)%Z -> (e1 + e2 < 900)%Z ->
  exists m e,
    SFmul 53 1024 (S754_finite false m1 e1) (S754_finite false m2 e2) = S754_finite false m e /\
    (2 ^ 52 <= Zpos m < 2 ^ 53)%Z /\
    (e1 + e2 <= e <= e1 + e2 + 54)%Z /\
    let v1 := float_value (S754_finite false m1 e1) in
    let v2 := float_value (S754_finite false m2 e2) in
    let v := float_value (S754_finite false m e) in
    inject_Z (2 ^ 52 - 1) * (v1 * v2) <= inject_Z (2 ^ 52) * v /\
    inject_Z (2 ^ 52) * v <= inject_Z (2 ^ 52 + 1) * (v1 * v2).
Proof.
  intros H1 H2 Hlo Hhi.
  destruct (b64_mul_relative m1 e1 m2 e2 H1 H2 Hlo Hhi) as (m & e & Hr & Hnorm & He & Hrel).
  exists m, e. split; [exact Hr|]. split; [exact Hnorm|]. split; [exact He|].
  cbv zeta. set (R := (Z.pos m * 2 ^ (e - (e1 + e2)))%Z) in *.
  assert (float_value (S754_finite false m1 e1) * float_value (S754_finite false m2 e2)
          == inject_Z (Z.pos m1 * Z.pos m2) * 2 ^ (e1 + e2)) as E1.
  { rewrite !float_value_bpow, inject_Z_mult, Qpower_plus by discriminate. ring. }
  assert (float_value (S754_finite false m e) == inject_Z R * 2 ^ (e1 + e2)) as E2.
  { now rewrite (float_value_units m e (e1 + e2)) by lia. }
  rewrite E1, E2, !Qmult_assoc, <- !inject_Z_mult.
  split; apply scale_le; try apply bpow_pos; lia.
Qed.

Lemma float_of_int_value z :
  (0 < z < 2 ^ 53)%Z ->
  exists m e,
    float_of_int z = S754_finite false m e /\
    (2 ^ 52 <= Zpos m < 2 ^ 53)%Z /\ (-52 <= e <= 0)%Z /\
    float_value (S754_finite false m e) == inject_Z z.
Proof.
  intros Hz. destruct (float_of_int_exact z Hz) as (m & e & Hf & Hnorm & He & Hv).
  exists m, e. split; [exact Hf|]. split; [exact Hnorm|]. split; [exact He|].
  rewrite float_value_bpow, Hv, inject_Z_mult, Zpower_Qpower by lia.
  rewrite <- Qmult_assoc, <- Qpower_plus by discriminate.
  replace (- e + e)%Z with 0%Z by lia. rewrite Qpower_0_r. ring.
Qed.

End Values.

Section Timeout.

(** The product [file_size_mb / 10 * 60], truncated, is the exact
    [6 * st_size / 2 ^ 20] rounded down, or one less. *)
Lemma timeout_product_floor (st_size : Z) :
  0 < st_size < 2 ^ 48 ->
  exists p : Z,
    int_of_float
      (b64_mul (b64_div (file_size_mb st_size) (float_of_int 10)) (float_of_int 60)) = Ok p /\
    6 * st_size / 2 ^ 20 - 1 <= p <= 6 * st_size / 2 ^ 20.
Proof.
  intros Hsize.
  destruct (float_of_int_value st_size ltac:(lia)) as (m0 & e0 & Hf0 & Hn0 & He0 & Hv0).
  unfold file_size_mb. rewrite Hf0.
  change (float_of_int (1024 * 1024)) with (S754_finite false 4503599627370496 (-32)).
  destruct (b64_div_value m0 e0 4503599627370496 (-32) Hn0 ltac:(lia) ltac:(lia) ltac:(lia))
    as (mx & ex & -> & Hnx & Hex & Hx).
  change (float_of_int 10) with (S754_finite false 5629499534213120 (-49)).
  destruct (b64_div_value mx ex 5629499534213120 (-49) Hnx ltac:(lia) ltac:(lia) ltac:(lia))
    as (my & ey & -> & Hny & Hey & Hy).
  change (float_of_int 60) with (S754_finite false 8444249301319680 (-47)).
  destruct (b64_mul_value my ey 8444249301319680 (-47) Hny ltac:(lia) ltac:(lia) ltac:(lia))
    as (mz & ez & -> & Hnz & Hez & Hz).
  rewrite int_of_float_floor. cbn [cond_Zopp]. eexists. split; [reflexivity|].
  cbv zeta in Hx, Hy, Hz.
  set (v0 := float_value (S754_finite false m0 e0)) in *.
  set (vx := float_value (S754_finite false mx ex)) in *.
  set (vy := float_value (S754_finite false my ey)) in *.
  set (vz := float_value (S754_finite false mz ez)) in *.
  change (float_value (S754_finite false 4503599627370496 (-32)))
    with (4503599627370496 # 4294967296)%Q in Hx.
  change (float_value (S754_finite false 5629499534213120 (-49)))
    with (5629499534213120 # 562949953421312)%Q in Hy.
  change (float_value (S754_finite false 8444249301319680 (-47)))
    with (8444249301319680 # 140737488355328)%Q in Hz.
  change (inject_Z (2 ^ 52 - 1)) with (4503599627370495 # 1)%Q in *.
  change (inject_Z (2 ^ 52)) with (4503599627370496 # 1)%Q in *.
  change (inject_Z (2 ^ 52 + 1)) with (4503599627370497 # 1)%Q in *.
  set (k := 6 * st_size / 2 ^ 20).
  assert (1048576 * k <= 6 * st_size <= 1048576 * k + 1048574 /\ 0 <= k <= 1610612736)
    as ((Hk1 & Hk2) & (Hk3 & Hk4)).
  { unfold k. change (2 ^ 48) with 281474976710656 in Hsize. change (2 ^ 20) with 1048576.
    Z.to_euclidean_division_equations. lia. }
  rewrite Zle_Qle in Hk1, Hk2, Hk3, Hk4.
  rewrite !inject_Z_mult in Hk1. rewrite inject_Z_plus, !inject_Z_mult in Hk2.
  set (K := inject_Z k) in *. set (S0 := inject_Z st_size) in *.
  change (inject_Z 1048576) with (1048576 # 1)%Q in *.
  change (inject_Z 1048574) with (1048574 # 1)%Q in *.
  change (inject_Z 6) with (6 # 1)%Q in *.
  change (inject_Z 0) with (0 # 1)%Q in *.
  change (inject_Z 1610612736) with (1610612736 # 1)%Q in *.
  split.
  - assert (inject_Z (k - 1) <= vz)%Q as Hlow.
    { replace (k - 1) with (k + -1) by lia. rewrite inject_Z_plus. fold K.
      change (inject_Z (-1)) with (-1 # 1)%Q. lra. }
    apply Qfloor_resp_le in Hlow. now rewrite Qfloor_Z in Hlow.
  - assert (vz < inject_Z (k + 1))%Q as Hup.
    { rewrite inject_Z_plus. fold K. change (inject_Z 1) with (1 # 1)%Q. lra. }
    apply floor_lt_iff in Hup. lia.
Qed.

End Timeout.

(** ** The request timeout *)

(** The timeout is not the real-number formula: at 21.25 MB the formula gives
    187.5 and the code 187. *)
Lemma request_timeout_not_the_formula :
  ~ (forall st_size t,
       0 <= st_size -> request_timeout st_size = Ok t ->
       (inject_Z t == claimed_timeout st_size)%Q).
Proof.
  intros H. specialize (H 22282240 187 ltac:(lia) eq_refl).
  vm_compute in H. discriminate.
Qed.

(** C3, amended: the timeout is [max(120, int(file_size_MB / 10 * 60) + 60)]:
    the quotient and the product are double-precision operations and the
    product is truncated to a whole number before the margin of 60 is added.
    It is a whole number of seconds, never below 120; for a file below
    [2 ^ 48] bytes it is [max(120, floor(6 * st_size / 2 ^ 20) + 60)] or one
    second less; 100 MB gives 660 and 1 MB gives 120, while 21.25 MB gives
    187 and 41 MB gives 305. *)
Theorem request_timeout_truncates :
  (forall st_size t : Z,
     request_timeout st_size = Ok t <->
     exists p : Z,
       int_of_float
         (b64_mul (b64_div (file_size_mb st_size) (float_of_int 10)) (float_of_int 60)) = Ok p /\
       t = Z.max 120 (p + 60)) /\
  (forall st_size t : Z, request_timeout st_size = Ok t -> 120 <= t) /\
  (forall st_size : Z,
     0 <= st_size < 2 ^ 48 ->
     request_timeout st_size = Ok (Z.max 120 (6 * st_size / 2 ^ 20 + 60)) \/
     request_timeout st_size = Ok (Z.max 120 (6 * st_size / 2 ^ 20 + 59))) /\
  request_timeout (100 * 1048576) = Ok 660 /\
  request_timeout (1 * 1048576) = Ok 120 /\
  request_timeout 22282240 = Ok 187 /\
  request_timeout (41 * 1048576) = Ok 305.
Proof.
  assert (forall st_size t : Z,
            request_timeout st_size = Ok t <->
            exists p : Z,
              int_of_float
                (b64_mul (b64_div (file_size_mb st_size) (float_of_int 10)) (float_of_int 60))
                = Ok p /\
              t = Z.max 120 (p + 60)) as Hunfold.
  { intros st_size t. unfold request_timeout.
    destruct (int_of_float _) as [p|e]; cbn [mbind result_bind].
    - split; [intros [= <-]; eauto | intros (p' & [= <-] & ->); reflexivity].
    - split; [discriminate | intros (p' & [=] & _)]. }
  split; [exact Hunfold|]. split; [|split; [|repeat split]].
  - intros st_size t (p & _ & ->)%Hunfold. lia.
  - intros st_size Hsize.
    destruct (Z.eq_dec st_size 0) as [->|Hnz]; [now left|].
    destruct (timeout_product_floor st_size ltac:(lia)) as (p & Hp & Hlo & Hhi).
    unfold request_timeout. rewrite Hp. cbn [mbind result_bind].
    destruct (Z.eq_dec p (6 * st_size / 2 ^ 20)) as [->|Hne]; [now left|].
    right. do 2 f_equal. lia.
Qed.


(** * Further properties of the pipeline *)

Section Stages.

Variable py_repr : pyval -> string.
Variable E : environment.
Variable args : arguments.

(** [main] is its three checks followed by the three stages. *)
Lemma main_stages (w : world) :
  preconditions_hold E args w ->
  exists c key,
    env_api_key E = Some (String c key) /\
    main py_repr E args w =
      (audio_path ← extract_stage E args;
       try_finally (try_block py_repr E audio_path (String c key) (output_path_of args))
         (finally_block (arg_keep_audio args) audio_path)) w.
Proof.
  intros (Hvideo & (c & key & Hkey) & Hff). exists c, key. split; [exact Hkey|].
  unfold main. rewrite bind_exists, (bool_decide_eq_true_2 _ Hvideo).
  cbn [negb]. rewrite bind_ret, Hkey, bind_ret.
  unfold check_ffmpeg. rewrite Hff, bind_ret. reflexivity.
Qed.

(** A failed check ends the run at once. *)
Lemma main_check_fails (w : world) :
  ¬ preconditions_hold E args w ->
  exists msgs,
    msgs <> [] /\
    main py_repr E args w =
      (Raise (SystemExit 1), World (fs w) (stdout w) (stderr w ++ msgs)).
Proof.
  intros Hnot. unfold main. rewrite bind_exists.
  assert (forall (A : Type) (k : unit -> M A) (s : string) w0,
            (eprint s ≫= k) w0 = k tt (World (fs w0) (stdout w0) (stderr w0 ++ [s]))) as Hstep
    by reflexivity.
  assert (forall ms : list string,
            ms <> [] ->
            exists msgs, msgs <> [] /\
              (@Raise unit (SystemExit 1), World (fs w) (stdout w) (stderr w ++ ms)) =
              (Raise (SystemExit 1), World (fs w) (stdout w) (stderr w ++ msgs))) as Hdone
    by eauto.
  destruct (fs w !! arg_video args) as [n|] eqn:Hvideo.
  - rewrite bool_decide_eq_true_2 by eauto. cbn [negb]. rewrite bind_ret.
    destruct (env_api_key E) as [[|c key]|] eqn:Hkey.
    + repeat (rewrite ?bind_assoc; rewrite Hstep; cbv beta).
      rewrite ?bind_assoc, bind_raise. cbn [fs stdout stderr]. rewrite <- !app_assoc.
      now apply Hdone.
    + rewrite bind_ret. unfold check_ffmpeg.
      destruct (env_ffmpeg_version_ok E) eqn:Hff.
      * exfalso. apply Hnot. split; [rewrite Hvideo; eauto|]. split; eauto.
      * repeat (rewrite ?bind_assoc; rewrite Hstep; cbv beta).
        rewrite ?bind_assoc, bind_raise. cbn [fs stdout stderr]. rewrite <- !app_assoc.
        now apply Hdone.
    + repeat (rewrite ?bind_assoc; rewrite Hstep; cbv beta).
      rewrite ?bind_assoc, bind_raise. cbn [fs stdout stderr]. rewrite <- !app_assoc.
      now apply Hdone.
  - rewrite bool_decide_eq_false_2 by (intros [? [=]]). cbn [negb].
    repeat (rewrite ?bind_assoc; rewrite Hstep; cbv beta).
    rewrite ?bind_assoc, bind_raise. cbn [fs stdout stderr].
    now apply Hdone.
Qed.

End Stages.

(** X1: when the video file is missing, the credential is unset or empty, or
    ffmpeg is not installed, [main] exits with status 1 before it does any
    work: the file system and the standard output are as before, and the
    diagnostics are on the standard error. *)
Theorem main_exits_on_failed_check
    (py_repr : pyval -> string) (E : environment) (args : arguments) (w : world) :
  ¬ preconditions_hold E args w ->
  exists w' msgs,
    main py_repr E args w = (Raise (SystemExit 1), w') /\
    fs w' = fs w /\ stdout w' = stdout w /\
    stderr w' = stderr w ++ msgs /\ msgs <> [].
Proof.
  intros (msgs & Hmsgs & Hrun)%(main_check_fails py_repr).
  eexists _, msgs. split; [exact Hrun|]. repeat split. exact Hmsgs.
Qed.

Lemma main_exits_on_failed_check_witness :
  exists w' msgs,
    main (fun _ => EmptyString) failing_transcode (Arguments ["nowhere.mp4"] None false)
      world_with_video = (Raise (SystemExit 1), w') /\
    fs w' = fs world_with_video /\ stdout w' = stdout world_with_video /\
    stderr w' = stderr world_with_video ++ msgs /\ msgs <> [].
Proof.
  apply main_exits_on_failed_check.
  intros [[n Hn] _]. vm_compute in Hn. discriminate.
Defined.

(** X2: without [--keep-audio], once the transcoder has written the WAV file
    into the fresh temporary directory, every way out of [main] (success,
    upstream failure, unwritable output) removes the file and the directory:
    the file system is the one of before, with at most the transcript
    added. *)
Theorem temp_audio_removed_after_extraction
    (py_repr : pyval -> string) (E : environment) (args : arguments) (w : world) (size : Z) :
  preconditions_hold E args w ->
  arg_keep_audio args = false ->
  returncode (env_ffmpeg E) = 0 ->
  written (env_ffmpeg E) = Some size ->
  fs w !! env_mkdtemp E = None ->
  map_Forall (fun q _ => ¬ Path.child_of (env_mkdtemp E) q) (fs w) ->
  output_path_of args <> env_mkdtemp E ->
  ¬ Path.child_of (env_mkdtemp E) (output_path_of args) ->
  exists r w',
    main py_repr E args w = (r, w') /\
    (fs w' = fs w \/
     exists transcript, fs w' = <[output_path_of args := Document transcript]> (fs w)) /\
    fs w' !! env_mkdtemp E = None /\
    fs w' !! temp_audio_path E args = None.
Proof.
  intros Hpre Hkeep Hrc Hwritten Hfresh Hempty Hout Hchild.
  now apply (main_cleans_up_after_extraction py_repr E args w Hpre Hkeep Hrc size).
Qed.

Lemma temp_audio_removed_after_extraction_witness :
  let args := Arguments video_talk None false in
  exists r w',
    main (fun _ => EmptyString) succeeding_run args world_with_video = (r, w') /\
    (fs w' = fs world_with_video \/
     exists transcript,
       fs w' = <[output_path_of args := Document transcript]> (fs world_with_video)) /\
    fs w' !! env_mkdtemp succeeding_run = None /\
    fs w' !! temp_audio_path succeeding_run args = None.
Proof.
  apply (temp_audio_removed_after_extraction _ succeeding_run _ world_with_video 960044).
  - split; [vm_compute; eauto|]. split; [|reflexivity]. exists "s"%char, "ecret". reflexivity.
  - reflexivity.
  - reflexivity.
  - reflexivity.
  - now vm_compute.
  - apply (bool_decide_unpack _). now vm_compute.
  - discriminate.
  - intros [_ Hparent]. vm_compute in Hparent. discriminate.
Defined.

Section KeepAudio.

Variable py_repr : pyval -> string.
Variable E : environment.
Variable args : arguments.
Variable w : world.

Hypothesis Hpre : preconditions_hold E args w.
Hypothesis Hkeep : arg_keep_audio args = true.
Hypothesis Hrc : returncode (env_ffmpeg E) = 0.
Variable size : Z.
Hypothesis Hwritten : written (env_ffmpeg E) = Some size.

Lemma main_keeps_audio :
  exists r w',
    main py_repr E args w = (r, w') /\
    (fs w' = <[kept_audio_path args := File size]> (fs w) \/
     exists transcript,
       fs w' = <[output_path_of args := Document transcript]>
                 (<[kept_audio_path args := File size]> (fs w))).
Proof.
  destruct (main_stages py_repr E args w Hpre) as (c & key & Hkey & ->).
  unfold extract_stage. rewrite Hkeep. cbv zeta. fold (kept_audio_path args).
  rewrite bind_assoc.
  destruct (extract_audio_succeeds E (arg_video args) (kept_audio_path args) size w Hrc Hwritten)
    as [lines Hex].
  unfold mbind at 1, M_bind. rewrite Hex. rewrite bind_ret. unfold try_finally, try_block.
  match goal with
  | |- context [let '(_, _) := _ ?w1 in _] =>
      destruct (try_body_fs py_repr E (kept_audio_path args) (String c key)
                  (output_path_of args) w1) as (r & w2 & Hrun & Hbody)
  end.
  cbv zeta in Hrun. cbn [fs] in Hbody. exists r, w2. split.
  - match goal with
    | |- (let '(_, _) := ?b in _) = _ => replace b with (r, w2) by (symmetry; exact Hrun)
    end.
    cbv beta iota. unfold finally_block. rewrite bind_exists. cbn [negb andb].
    reflexivity.
  - exact Hbody.
Qed.

End KeepAudio.

(** X3: with [--keep-audio] the WAV file is written beside the video and is
    still there, as the transcoder wrote it, when [main] ends, whatever
    happens after the extraction; no temporary directory is made.  The only
    other change is the transcript, when it is written (and when the output
    path is not that of the WAV file itself). *)
Theorem keep_audio_retains_wav
    (py_repr : pyval -> string) (E : environment) (args : arguments) (w : world) (size : Z) :
  preconditions_hold E args w ->
  arg_keep_audio args = true ->
  returncode (env_ffmpeg E) = 0 ->
  written (env_ffmpeg E) = Some size ->
  output_path_of args <> kept_audio_path args ->
  exists r w',
    main py_repr E args w = (r, w') /\
    fs w' !! kept_audio_path args = Some (File size) /\
    (fs w' = <[kept_audio_path args := File size]> (fs w) \/
     exists transcript,
       fs w' = <[output_path_of args := Document transcript]>
                 (<[kept_audio_path args := File size]> (fs w))).
Proof.
  intros Hpre Hkeep Hrc Hwritten Hout.
  destruct (main_keeps_audio py_repr E args w Hpre Hkeep Hrc size Hwritten)
    as (r & w' & Hrun & Hfs).
  exists r, w'. split; [exact Hrun|]. split; [|exact Hfs].
  destruct Hfs as [->|[t ->]].
  - apply lookup_insert_eq.
  - rewrite lookup_insert_ne by exact Hout. apply lookup_insert_eq.
Qed.

Lemma keep_audio_retains_wav_witness :
  let args := Arguments video_talk None true in
  exists r w',
    main (fun _ => EmptyString) succeeding_run args world_with_video = (r, w') /\
    fs w' !! kept_audio_path args = Some (File 960044) /\
    (fs w' = <[kept_audio_path args := File 960044]> (fs world_with_video) \/
     exists transcript,
       fs w' = <[output_path_of args := Document transcript]>
                 (<[kept_audio_path args := File 960044]> (fs world_with_video))).
Proof.
  apply (keep_audio_retains_wav _ succeeding_run _ world_with_video 960044).
  - split; [vm_compute; eauto|]. split; [|reflexivity]. exists "s"%char, "ecret". reflexivity.
  - reflexivity.
  - reflexivity.
  - reflexivity.
  - discriminate.
Defined.

Section Footprint.

Variable py_repr : pyval -> string.
Variable E : environment.
Variable S : list path.

Lemma touches_of_preserves {A} (m : M A) : preserves_fs m -> touches_only S m.
Proof. intros Hm w q _. now rewrite Hm. Qed.

Lemma touches_bind {A B} (m : M A) (k : A -> M B) :
  touches_only S m -> (forall a, touches_only S (k a)) -> touches_only S (m ≫= k).
Proof.
  intros Hm Hk w q Hq. unfold mbind, M_bind. specialize (Hm w q Hq).
  destruct (m w) as [[a|e] w1]; cbn [snd] in *; [|assumption].
  now rewrite Hk.
Qed.

Lemma touches_try_finally {A} (body : M A) (final : M unit) :
  touches_only S body -> touches_only S final -> touches_only S (try_finally body final).
Proof.
  intros Hb Hf w q Hq. unfold try_finally. specialize (Hb w q Hq).
  destruct (body w) as [r w1]. specialize (Hf w1 q Hq).
  destruct (final w1) as [[u|e] w2]; cbn [snd] in *; congruence.
Qed.

Lemma touches_insert (p : path) (x : node) : p ∈ S -> touches_only S (set_fs (insert p x)).
Proof.
  intros Hp w q Hq. cbn. apply lookup_insert_ne. intros ->. contradiction.
Qed.

Lemma touches_unlink (p : path) : p ∈ S -> touches_only S (Path.unlink p).
Proof.
  intros Hp w q Hq. unfold Path.unlink.
  destruct (fs w !! p) as [[| |]|]; cbn; try reflexivity;
    apply lookup_delete_ne; intros ->; contradiction.
Qed.

Lemma touches_rmdir (p : path) : p ∈ S -> touches_only S (Path.rmdir p).
Proof.
  intros Hp w q Hq. unfold Path.rmdir.
  destruct (fs w !! p) as [[| |]|]; cbn; try reflexivity.
  destruct (decide _); cbn; [|reflexivity].
  apply lookup_delete_ne; intros ->; contradiction.
Qed.

Lemma touches_extract_audio (video_path output_path : path) :
  output_path ∈ S -> touches_only S (extract_audio E video_path output_path).
Proof.
  intros Hout. unfold extract_audio, run_ffmpeg.
  apply touches_bind; [apply touches_of_preserves, preserves_print|]. intros _.
  apply touches_bind.
  - apply touches_bind; [|intros _; apply touches_of_preserves, preserves_ret].
    destruct (written (env_ffmpeg E)); [now apply touches_insert|].
    apply touches_of_preserves, preserves_ret.
  - intros run. destruct (negb _); [apply touches_of_preserves, preserves_raise|].
    apply touches_of_preserves.
    apply preserves_bind; [apply preserves_stat|]. intros size.
    apply preserves_bind; [apply preserves_print | intros _; apply preserves_ret].
Qed.

Lemma touches_try_block (audio_path : path) (api_key : string) (output_path : path) :
  output_path ∈ S -> touches_only S (try_block py_repr E audio_path api_key output_path).
Proof.
  intros Hout. unfold try_block.
  apply touches_bind; [apply touches_of_preserves, transcribe_preserves_fs|]. intros t.
  apply touches_bind.
  - unfold save_json. destruct (env_open_output E);
      [apply touches_of_preserves, preserves_raise | now apply touches_insert].
  - intros _. apply touches_of_preserves.
    apply preserves_bind; [apply preserves_print | intros _].
    apply print_transcript_preserves_fs.
Qed.

Lemma touches_finally_block (keep : bool) (audio_path : path) :
  audio_path ∈ S -> (keep = false -> Path.parent audio_path ∈ S) ->
  touches_only S (finally_block keep audio_path).
Proof.
  intros Ha Hp. unfold finally_block.
  apply touches_bind; [apply touches_of_preserves; now intros w|]. intros found.
  destruct keep; cbn [negb andb]; [apply touches_of_preserves, preserves_ret|].
  destruct found; [|apply touches_of_preserves, preserves_ret].
  apply touches_bind; [now apply touches_unlink | intros _; apply touches_rmdir; auto].
Qed.

End Footprint.

Lemma stages_touch_footprint (py_repr : pyval -> string) (E : environment)
    (args : arguments) (api_key : string) :
  touches_only (footprint E args)
    (audio_path ← extract_stage E args;
     try_finally (try_block py_repr E audio_path api_key (output_path_of args))
       (finally_block (arg_keep_audio args) audio_path)).
Proof.
  assert (output_path_of args ∈ footprint E args) as Hout.
  { unfold footprint. apply elem_of_app. right. repeat constructor. }
  assert (audio_path_of E args ∈ footprint E args) as Haudio.
  { unfold footprint. apply elem_of_app. right. repeat constructor. }
  assert (arg_keep_audio args = false -> env_mkdtemp E ∈ footprint E args) as Htmp.
  { intros Hkeep. unfold footprint. rewrite Hkeep. repeat constructor. }
  assert (forall audio_path,
            audio_path = audio_path_of E args ->
            touches_only (footprint E args)
              (try_finally (try_block py_repr E audio_path api_key (output_path_of args))
                 (finally_block (arg_keep_audio args) audio_path))) as Htry.
  { intros audio_path ->. apply touches_try_finally.
    - now apply touches_try_block.
    - apply touches_finally_block; [exact Haudio|].
      intros Hkeep. unfold audio_path_of. rewrite Hkeep.
      unfold temp_audio_path. rewrite parent_join. auto. }
  set (F := footprint E args) in *.
  unfold extract_stage, audio_path_of in *.
  destruct (arg_keep_audio args) eqn:Hkeep; cbv zeta in *.
  - intros w q Hq. rewrite bind_assoc.
    apply (touches_bind F); [now apply touches_extract_audio | | exact Hq].
    intros _ w1 q1 Hq1. rewrite bind_ret. now apply Htry.
  - intros w q Hq. rewrite !bind_assoc.
    apply (touches_bind F); [apply touches_insert; auto | | exact Hq].
    intros _ w1 q1 Hq1. rewrite bind_assoc.
    apply (touches_bind F); [now apply touches_extract_audio | | exact Hq1].
    intros _ w2 q2 Hq2. rewrite bind_ret. now apply Htry.
Qed.

(** X4: whatever the environment does, [main] creates, overwrites or removes
    nothing but the WAV file, the output file and, without [--keep-audio],
    the temporary directory: every other path holds after the run what it
    held before. *)
Theorem main_footprint
    (py_repr : pyval -> string) (E : environment) (args : arguments) (w : world) (q : path) :
  q ∉ footprint E args ->
  fs (main py_repr E args w).2 !! q = fs w !! q.
Proof.
  intros Hq.
  assert (preconditions_hold E args w \/ ¬ preconditions_hold E args w) as [Hpre|Hnot].
  { unfold preconditions_hold.
    destruct (fs w !! arg_video args) as [n|]; [|right; intros [[? [=]] _]].
    destruct (env_api_key E) as [[|c key]|];
      [right; intros (_ & (? & ? & [=]) & _) | | right; intros (_ & (? & ? & [=]) & _)].
    destruct (env_ffmpeg_version_ok E); [left; eauto 8 | right; intros (_ & _ & [=])]. }
  - destruct (main_stages py_repr E args w Hpre) as (c & key & _ & ->).
    now apply stages_touch_footprint.
  - destruct (main_check_fails py_repr E args w Hnot) as (msgs & _ & ->). reflexivity.
Qed.

Lemma main_footprint_witness :
  fs (main (fun _ => EmptyString) succeeding_run (Arguments video_talk None false)
        world_with_video).2 !! video_talk
  = fs world_with_video !! video_talk.
Proof.
  apply main_footprint. vm_compute.
  intros H. repeat (apply elem_of_cons in H as [[=]|H]). now apply elem_of_nil in H.
Defined.

Section ConsoleOnly.

Variable py_repr : pyval -> string.
Variable E : environment.

Lemma console_ret {A} (a : A) : console_only (mret a).
Proof. intros w. repeat split. exists []. cbn. now rewrite app_nil_r. Qed.

Lemma console_raise {A} (e : exn) : console_only (@raise A e).
Proof. intros w. repeat split. exists []. cbn. now rewrite app_nil_r. Qed.

Lemma console_lift {A} (r : result A) : console_only (lift r).
Proof. intros w. repeat split. exists []. cbn. now rewrite app_nil_r. Qed.

Lemma console_print s : console_only (print s).
Proof. intros w. repeat split. now exists [s]. Qed.

Lemma console_stat p : console_only (Path.stat_size p).
Proof.
  intros w. unfold Path.stat_size.
  destruct (fs w !! p) as [[]|]; repeat split; exists []; cbn; now rewrite app_nil_r.
Qed.

Lemma console_bind {A B} (m : M A) (k : A -> M B) :
  console_only m -> (forall a, console_only (k a)) -> console_only (m ≫= k).
Proof.
  intros Hm Hk w. unfold mbind, M_bind. destruct (Hm w) as (Hfs & Herr & lines & Hout).
  destruct (m w) as [[a|e] w1]; cbn [snd] in *; [|eauto].
  destruct (Hk a w1) as (Hfs' & Herr' & lines' & Hout').
  split; [congruence|]. split; [congruence|].
  exists (lines ++ lines'). now rewrite Hout', Hout, app_assoc.
Qed.

Lemma console_for_each {A} (l : list A) (body : A -> M unit) :
  (forall x, console_only (body x)) -> console_only (for_each l body).
Proof.
  intros Hbody. induction l as [|x l IH]; cbn [for_each].
  - apply console_ret.
  - apply console_bind; [apply Hbody | intros _; exact IH].
Qed.

Ltac console :=
  repeat first
    [ apply console_ret | apply console_raise | apply console_lift
    | apply console_print | apply console_stat
    | apply console_bind; [|intros ?]
    | apply console_for_each; intros ?
    | match goal with
      | |- console_only (match ?x with _ => _ end) => destruct x
      end ].

Lemma transcribe_console_only audio_path api_key :
  console_only (transcribe E audio_path api_key).
Proof. unfold transcribe. console. Qed.

Lemma print_transcript_console_only transcript :
  console_only (print_transcript py_repr transcript).
Proof. unfold print_transcript, print_segment. console. Qed.

End ConsoleOnly.

(** X6: [transcribe] and [print_transcript] only print: whatever the service
    answers and whatever the transcript holds, and whether they return or
    raise, they leave every file and the standard error as they found them
    and only append to the standard output. *)
Theorem transcribe_and_print_only_print
    (py_repr : pyval -> string) (E : environment)
    (audio_path : path) (api_key : string) (transcript : pyval) :
  console_only (transcribe E audio_path api_key) /\
  console_only (print_transcript py_repr transcript).
Proof.
  split; [apply transcribe_console_only | apply print_transcript_console_only].
Qed.

Section Printing.

Variable py_repr : pyval -> string.






End Printing.



Section Runs.

Variable py_repr : pyval -> string.
Variable E : environment.

Lemma request_timeout_total (st_size : Z) :
  0 <= st_size < 2 ^ 48 -> exists t, request_timeout st_size = Ok t /\ 120 <= t.
Proof.
  intros Hsize. destruct (Z.eq_dec st_size 0) as [->|Hnz].
  - exists 120. split; [reflexivity | lia].
  - destruct (timeout_product_floor st_size ltac:(lia)) as (p & Hp & _).
    unfold request_timeout. rewrite Hp. cbn [mbind result_bind]. eexists. split; [reflexivity|lia].
Qed.

(** [transcribe] up to the answer of the service: two progress lines, one
    request. *)
Lemma transcribe_request (audio_path : path) (api_key : string) (size : Z)
    (outcome : http_outcome) (w : world) :
  fs w !! audio_path = Some (File size) -> 0 <= size < 2 ^ 48 ->
  service_answers E audio_path api_key outcome ->
  transcribe E audio_path api_key w =
    match outcome with
    | HttpRaises e => raise e
    | HttpResponse status_code text json =>
        if negb (status_code =? 200)
        then raise (Exception ("Fireworks API error " +:+ str_of_int status_code +:+ ": " +:+ text))
        else
          response ← match json with Some v => mret v | None => raise JSONDecodeError end;
          transcript ← lift (normalize (Path.name audio_path) response);
          n ← lift (py_getitem transcript "segments" ≫= py_len);
          d ← lift (py_getitem transcript "duration" ≫= format_timestamp);
          print ("Transcription complete: " +:+ str_of_int n +:+ " segments, " +:+ d +:+ " duration");;
          mret transcript
    end
      (World (fs w)
         (stdout w ++ ["Transcribing " +:+ Path.name audio_path +:+ " via Fireworks AI Whisper-v3...";
                       "(This may take several minutes for long recordings.)"])
         (stderr w)).
Proof.
  intros Hfile Hsize Hanswer.
  destruct (request_timeout_total size Hsize) as (t & Ht & Hge).
  unfold transcribe. rewrite !bind_print; cbv beta.
  unfold mbind at 1, M_bind, Path.stat_size. cbn [fs stdout stderr]. rewrite Hfile.
  rewrite (bind_lift_ok _ _ _ _ Ht). rewrite <- app_assoc. cbn [app].
  match goal with
  | |- context [env_http_post E ?req] =>
      rewrite (Hanswer req eq_refl eq_refl eq_refl eq_refl Hge)
  end.
  reflexivity.
Qed.

(** The ways [transcribe] fails once the request is sent. *)
Lemma transcribe_fails (audio_path : path) (api_key : string) (size : Z)
    (outcome : http_outcome) (e : exn) (w : world) :
  fs w !! audio_path = Some (File size) -> 0 <= size < 2 ^ 48 ->
  service_answers E audio_path api_key outcome ->
  upstream_failure (Path.name audio_path) outcome e ->
  exists lines,
    transcribe E audio_path api_key w =
      (Raise e, World (fs w) (stdout w ++ lines) (stderr w)).
Proof.
  intros Hfile Hsize Hanswer Hfail. eexists.
  rewrite (transcribe_request _ _ _ _ _ Hfile Hsize Hanswer).
  destruct Hfail as [e|status text json Hstatus|text|text v e Hnorm|text v t e Hnorm Hdur].
  - reflexivity.
  - apply Z.eqb_neq in Hstatus. rewrite Hstatus. reflexivity.
  - reflexivity.
  - cbn [Z.eqb Pos.eqb negb]. rewrite bind_ret. unfold mbind at 1, M_bind, lift.
    rewrite Hnorm. reflexivity.
  - cbn [Z.eqb Pos.eqb negb]. rewrite bind_ret, (bind_lift_ok _ _ _ _ Hnorm).
    destruct (normalize_inv _ _ _ Hnorm) as (d & items & segs & _ & _ & _ & ->).
    match goal with
    | |- (lift ?r ≫= _) _ = _ => rewrite (bind_lift_ok r (Z.of_nat (length segs)) _ _ eq_refl)
    end.
    unfold mbind at 1, M_bind, lift. rewrite Hdur. reflexivity.
Qed.

(** [transcribe] on a response the normalizer accepts and whose duration
    renders. *)
Lemma transcribe_succeeds (audio_path : path) (api_key : string) (size : Z)
    (text : string) (v t : pyval) (d : string) (w : world) :
  fs w !! audio_path = Some (File size) -> 0 <= size < 2 ^ 48 ->
  service_answers E audio_path api_key (HttpResponse 200 text (Some v)) ->
  normalize (Path.name audio_path) v = Ok t ->
  py_getitem t "duration" ≫= format_timestamp = Ok d ->
  exists lines,
    transcribe E audio_path api_key w =
      (Ok t, World (fs w) (stdout w ++ lines) (stderr w)).
Proof.
  intros Hfile Hsize Hanswer Hnorm Hdur.
  rewrite (transcribe_request _ _ _ _ _ Hfile Hsize Hanswer).
  cbn [Z.eqb Pos.eqb negb]. rewrite bind_ret, (bind_lift_ok _ _ _ _ Hnorm).
  destruct (normalize_inv _ _ _ Hnorm) as (d0 & items & segs & _ & _ & _ & ->).
  eexists.
  match goal with
  | |- (lift ?r ≫= _) _ = _ => rewrite (bind_lift_ok r (Z.of_nat (length segs)) _ _ eq_refl)
  end.
  rewrite (bind_lift_ok _ _ _ _ Hdur), bind_print.
  cbn [fs stdout stderr]. rewrite <- app_assoc. reflexivity.
Qed.

Variable args : arguments.
Variable w : world.

Hypothesis Hpre : preconditions_hold E args w.
Hypothesis Hkeep : arg_keep_audio args = false.
Hypothesis Hrc : returncode (env_ffmpeg E) = 0.
Variable size : Z.
Hypothesis Hwritten : written (env_ffmpeg E) = Some size.
Hypothesis Hfresh : fs w !! env_mkdtemp E = None.
Hypothesis Hempty : map_Forall (fun q _ => ¬ Path.child_of (env_mkdtemp E) q) (fs w).

(** A run without [--keep-audio] whose extraction succeeds is the [try]
    statement on the world that holds the WAV file. *)
Lemma main_no_keep_stages :
  exists c key lines,
    env_api_key E = Some (String c key) /\
    main py_repr E args w =
      try_finally
        (try_block py_repr E (temp_audio_path E args) (String c key) (output_path_of args))
        (finally_block false (temp_audio_path E args))
        (World (<[temp_audio_path E args := File size]> (<[env_mkdtemp E := Dir]> (fs w)))
           (stdout w ++ lines) (stderr w)).
Proof.
  destruct (main_stages py_repr E args w Hpre) as (c & key & Hkey & Hmain).
  exists c, key.
  destruct (extract_audio_succeeds E (arg_video args) (temp_audio_path E args) size
              (World (<[env_mkdtemp E:=Dir]> (fs w)) (stdout w) (stderr w)) Hrc Hwritten)
    as [lines Hex].
  exists lines. split; [exact Hkey|].
  rewrite Hmain. unfold extract_stage. rewrite Hkeep. cbv zeta.
  fold (temp_audio_path E args).
  rewrite !bind_assoc, bind_set_fs; cbv beta. rewrite bind_assoc.
  unfold mbind at 1, M_bind. rewrite Hex. cbn [fs stdout stderr].
  now rewrite bind_ret.
Qed.

Lemma temp_audio_fresh : fs w !! temp_audio_path E args = None.
Proof.
  destruct (fs w !! temp_audio_path E args) eqn:Hl; [|reflexivity].
  destruct (Hempty _ _ Hl). split; [|apply parent_join].
  unfold temp_audio_path, Path.join. now destruct (env_mkdtemp E).
Qed.

Lemma temp_dir_not_its_child : ¬ Path.child_of (env_mkdtemp E) (env_mkdtemp E).
Proof.
  intros [Hnil Hp]. apply (f_equal (@length string)) in Hp.
  unfold Path.parent in Hp. destruct (env_mkdtemp E) as [|x l] using rev_ind; [easy|].
  rewrite removelast_last, length_app in Hp. cbn in Hp. lia.
Qed.

(** Removing the WAV file and the directory gives back the file system of
    before the extraction. *)
Lemma cleanup_restores :
  delete (env_mkdtemp E)
    (delete (temp_audio_path E args)
       (<[temp_audio_path E args := File size]> (<[env_mkdtemp E := Dir]> (fs w)))) = fs w.
Proof.
  assert (temp_audio_path E args <> env_mkdtemp E) as Hat by apply join_neq.
  rewrite delete_insert_eq, delete_insert_ne, delete_insert_eq by congruence.
  rewrite (delete_id _ (temp_audio_path E args)) by exact temp_audio_fresh.
  now apply delete_id.
Qed.

(** The [finally] block after a [try] block that changed no file. *)
Lemma finally_restores (w2 : world) :
  fs w2 = <[temp_audio_path E args := File size]> (<[env_mkdtemp E := Dir]> (fs w)) ->
  finally_block false (temp_audio_path E args) w2 =
    (Ok tt, World (fs w) (stdout w2) (stderr w2)).
Proof.
  intros Hfs.
  assert (temp_audio_path E args <> env_mkdtemp E) as Hat by apply join_neq.
  unfold finally_block, temp_audio_path.
  rewrite (finally_block_removes (env_mkdtemp E) (Path.stem (arg_video args) +:+ ".wav")
             w2 (File size)).
  - fold (temp_audio_path E args). now rewrite Hfs, cleanup_restores.
  - fold (temp_audio_path E args). rewrite Hfs. apply lookup_insert_eq.
  - discriminate.
  - rewrite Hfs. rewrite lookup_insert_ne by congruence. apply lookup_insert_eq.
  - fold (temp_audio_path E args). intros q x Hq Hqa. rewrite Hfs in Hq.
    rewrite lookup_insert_ne in Hq by congruence.
    destruct (decide (q = env_mkdtemp E)) as [->|Hqt]; [apply temp_dir_not_its_child|].
    rewrite lookup_insert_ne in Hq by congruence. now apply (Hempty _ _ Hq).
Qed.


Variable key : string.
Hypothesis Hkey : env_api_key E = Some key.
Hypothesis Hsize : 0 <= size < 2 ^ 48.

(** A failure of [transcribe] is the failure of the run, and the cleanup
    restores the file system. *)
Lemma main_no_keep_upstream_failure (outcome : http_outcome) (e : exn) :
  service_answers E (temp_audio_path E args) key outcome ->
  upstream_failure (Path.name (temp_audio_path E args)) outcome e ->
  exists lines,
    main py_repr E args w = (Raise e, World (fs w) (stdout w ++ lines) (stderr w)).
Proof.
  intros Hanswer Hfail.
  destruct main_no_keep_stages as (c & key' & lines & Hkey' & ->).
  assert (key = String c key') as <- by congruence.
  set (w1 := World _ (stdout w ++ lines) (stderr w)).
  destruct (transcribe_fails (temp_audio_path E args) key size outcome e w1)
    as [lines' Htr]; try assumption.
  { apply lookup_insert_eq. }
  exists (lines ++ lines').
  unfold try_finally, try_block. unfold mbind at 1, M_bind. rewrite Htr.
  rewrite finally_restores by reflexivity.
  unfold w1. cbn [fs stdout stderr]. now rewrite <- app_assoc.
Qed.

Variable text : string.
Variables v t : pyval.
Variable d : string.

Hypothesis Hanswer :
  service_answers E (temp_audio_path E args) key (HttpResponse 200 text (Some v)).
Hypothesis Hnorm : normalize (Path.name (temp_audio_path E args)) v = Ok t.
Hypothesis Hdur : py_getitem t "duration" ≫= format_timestamp = Ok d.

(** The output file cannot be opened: the run ends there, and the cleanup
    restores the file system. *)
Lemma main_no_keep_unwritable (e : exn) :
  env_open_output E = Some e ->
  exists lines,
    main py_repr E args w = (Raise e, World (fs w) (stdout w ++ lines) (stderr w)).
Proof.
  intros Hopen.
  destruct main_no_keep_stages as (c & key' & lines & Hkey' & ->).
  assert (key = String c key') as <- by congruence.
  set (w1 := World _ (stdout w ++ lines) (stderr w)).
  destruct (transcribe_succeeds (temp_audio_path E args) key size text v t d w1)
    as [lines' Htr]; try assumption.
  { apply lookup_insert_eq. }
  exists (lines ++ lines').
  unfold try_finally, try_block. unfold mbind at 1, M_bind. rewrite Htr.
  unfold save_json. rewrite Hopen, bind_raise.
  rewrite finally_restores by reflexivity.
  unfold w1. cbn [fs stdout stderr]. now rewrite <- app_assoc.
Qed.


End Runs.

(** X5: without [--keep-audio], when the request fails, the service answers
    with a status other than 200, the body is not JSON, the normalizer
    rejects the response, or [format_timestamp] raises on its [duration]
    (null, a list, an object, a string that is no integer literal, NaN or an
    infinite float), [main] ends with that very exception; the WAV file and
    the temporary directory are removed and no transcript is written, so the
    file system is the one of before the run, and nothing goes to the
    standard error. *)
Theorem upstream_failure_propagates
    (py_repr : pyval -> string) (E : environment) (args : arguments) (w : world)
    (size : Z) (key : string) (outcome : http_outcome) (e : exn) :
  preconditions_hold E args w ->
  arg_keep_audio args = false ->
  returncode (env_ffmpeg E) = 0 ->
  written (env_ffmpeg E) = Some size ->
  0 <= size < 2 ^ 48 ->
  fs w !! env_mkdtemp E = None ->
  map_Forall (fun q _ => ¬ Path.child_of (env_mkdtemp E) q) (fs w) ->
  env_api_key E = Some key ->
  service_answers E (temp_audio_path E args) key outcome ->
  upstream_failure (Path.name (temp_audio_path E args)) outcome e ->
  exists w',
    main py_repr E args w = (Raise e, w') /\
    fs w' = fs w /\ stderr w' = stderr w.
Proof.
  intros Hpre Hkeep Hrc Hwritten Hsize Hfresh Hempty Hkey Hanswer Hfail.
  destruct (main_no_keep_upstream_failure py_repr E args w Hpre Hkeep Hrc size Hwritten
              Hfresh Hempty key Hkey Hsize outcome e Hanswer Hfail) as [lines Hrun].
  eexists. split; [exact Hrun|]. now split.
Qed.

Lemma upstream_failure_propagates_witness :
  exists w',
    main (fun _ => EmptyString) overloaded_service (Arguments video_talk None false)
      world_with_video
      = (Raise (Exception "Fireworks API error 503: overloaded"), w') /\
    fs w' = fs world_with_video /\ stderr w' = stderr world_with_video.
Proof.
  apply (upstream_failure_propagates _ overloaded_service _ world_with_video 960044 "secret"
           (HttpResponse 503 "overloaded" None)).
  - split; [vm_compute; eauto|]. split; [|reflexivity]. exists "s"%char, "ecret". reflexivity.
  - reflexivity.
  - reflexivity.
  - reflexivity.
  - lia.
  - now vm_compute.
  - apply (bool_decide_unpack _). now vm_compute.
  - reflexivity.
  - intros req _ _ _ _ _. reflexivity.
  - apply (status_not_200 _ 503 "overloaded" None). discriminate.
Defined.

(** X8: without [--keep-audio], when the service answers with a response
    that the normalizer accepts and whose [duration] the completion message
    can render, but the output file cannot be opened, [main] ends with the
    error of [open]; the WAV file and the temporary directory are removed,
    so the file system is the one of before the run, and nothing goes to
    the standard error. *)
Theorem unwritable_output_ends_run
    (py_repr : pyval -> string) (E : environment) (args : arguments) (w : world)
    (size : Z) (key text : string) (v t : pyval) (d : string) (e : exn) :
  preconditions_hold E args w ->
  arg_keep_audio args = false ->
  returncode (env_ffmpeg E) = 0 ->
  written (env_ffmpeg E) = Some size ->
  0 <= size < 2 ^ 48 ->
  fs w !! env_mkdtemp E = None ->
  map_Forall (fun q _ => ¬ Path.child_of (env_mkdtemp E) q) (fs w) ->
  env_api_key E = Some key ->
  service_answers E (temp_audio_path E args) key (HttpResponse 200 text (Some v)) ->
  normalize (Path.name (temp_audio_path E args)) v = Ok t ->
  py_getitem t "duration" ≫= format_timestamp = Ok d ->
  env_open_output E = Some e ->
  exists w',
    main py_repr E args w = (Raise e, w') /\
    fs w' = fs w /\ stderr w' = stderr w.
Proof.
  intros Hpre Hkeep Hrc Hwritten Hsize Hfresh Hempty Hkey Hanswer Hnorm Hdur Hopen.
  destruct (main_no_keep_unwritable py_repr E args w Hpre Hkeep Hrc size Hwritten
              Hfresh Hempty key Hkey Hsize text v t d Hanswer Hnorm Hdur e Hopen)
    as [lines Hrun].
  eexists. split; [exact Hrun|]. now split.
Qed.

Lemma unwritable_output_ends_run_witness :
  exists w',
    main (fun _ => EmptyString) unwritable_output (Arguments video_talk None false)
      world_with_video = (Raise OSError, w') /\
    fs w' = fs world_with_video /\ stderr w' = stderr world_with_video.
Proof.
  apply (unwritable_output_ends_run _ unwritable_output _ world_with_video 960044 "secret"
           EmptyString two_segment_response two_segment_transcript "0m30s").
  - split; [vm_compute; eauto|]. split; [|reflexivity]. exists "s"%char, "ecret". reflexivity.
  - reflexivity.
  - reflexivity.
  - reflexivity.
  - lia.
  - now vm_compute.
  - apply (bool_decide_unpack _). now vm_compute.
  - reflexivity.
  - intros req _ _ _ _ _. reflexivity.
  - reflexivity.
  - reflexivity.
  - reflexivity.
Defined.



Section Acceptance.

Lemma mapM_accepts {A B} (f : A -> result B) (p : A -> bool) (l : list A) :
  (forall x, (exists y, f x = Ok y) <-> p x = true) ->
  (exists l', mapM f l = Ok l') <-> forallb p l = true.
Proof.
  intros Hf. induction l as [|x l IH]; cbn [mapM forallb].
  - split; eauto.
  - rewrite andb_true_iff, <- IH, <- Hf. split.
    + destruct (f x) as [y|e]; cbn [mbind result_bind]; [|intros [? [=]]].
      destruct (mapM f l) as [ys|e]; cbn [mbind result_bind]; [eauto|intros [? [=]]].
    + intros [[y ->] [ys ->]]. cbn. eauto.
Qed.

Lemma mapM_raise {A B} (f : A -> result B) (l : list A) (e : exn) :
  mapM f l = Raise e -> exists x, In x l /\ f x = Raise e.
Proof.
  induction l as [|x l IH]; cbn [mapM]; [discriminate|].
  destruct (f x) as [y|e'] eqn:Hx; cbn [mbind result_bind].
  - destruct (mapM f l) as [ys|e'']; cbn [mbind result_bind]; [discriminate|].
    intros [= ->]. destruct (IH eq_refl) as (x' & Hin & Hx'). exists x'. split; [now right|exact Hx'].
  - intros [= ->]. exists x. split; [now left|exact Hx].
Qed.

Lemma normalize_word_accepts (w : pyval) :
  (exists w', normalize_word w = Ok w') <-> is_dict w = true.
Proof.
  destruct w; cbn; split; try discriminate; try (intros [? [=]]); eauto.
Qed.

Lemma normalize_word_raises (w : pyval) (e : exn) :
  normalize_word w = Raise e -> e = AttributeError.
Proof. destruct w; cbn; congruence. Qed.

Lemma normalize_segment_accepts (x : pyval) :
  (exists y, normalize_segment x = Ok y) <-> accepted_segment x = true.
Proof.
  destruct x as [| | | | | |d]; try (cbn; split; [intros [? [=]] | discriminate]).
  unfold normalize_segment, accepted_segment.
  cbn [py_get mbind result_bind]. unfold Dict.mem, py_getitem.
  destruct (Dict.get d "text") as [[| | | |s| |]|];
    cbn [py_strip mbind result_bind andb]; try (split; [intros [? [=]] | discriminate]).
  - destruct (Dict.get d "words") as [ws|]; cbn [mbind result_bind]; [|split; eauto].
    destruct (py_iter ws) as [items|e]; cbn [mbind result_bind];
      [|split; [intros [? [=]] | discriminate]].
    rewrite <- (mapM_accepts normalize_word is_dict items normalize_word_accepts).
    destruct (mapM normalize_word items); cbn [mbind result_bind]; split; eauto;
      intros [? [=]].
  - destruct (Dict.get d "words") as [ws|]; cbn [mbind result_bind]; [|split; eauto].
    destruct (py_iter ws) as [items|e]; cbn [mbind result_bind];
      [|split; [intros [? [=]] | discriminate]].
    rewrite <- (mapM_accepts normalize_word is_dict items normalize_word_accepts).
    destruct (mapM normalize_word items); cbn [mbind result_bind]; split; eauto;
      intros [? [=]].
Qed.

Lemma normalize_segment_raises (x : pyval) (e : exn) :
  normalize_segment x = Raise e -> e = AttributeError \/ e = TypeError.
Proof.
  destruct x as [| | | | | |d]; try (cbn; intros [= <-]; now left).
  unfold normalize_segment. cbn [py_get mbind result_bind]. unfold Dict.mem, py_getitem.
  destruct (py_strip _) as [text|e']  eqn:Hstrip; cbn [mbind result_bind].
  - destruct (Dict.get d "words") as [ws|]; cbn [mbind result_bind]; [|discriminate].
    destruct (py_iter ws) as [items|e''] eqn:Hiter; cbn [mbind result_bind].
    + destruct (mapM normalize_word items) as [words|e''] eqn:Hw;
        cbn [mbind result_bind]; [discriminate|].
      intros [= ->]. destruct (mapM_raise _ _ _ Hw) as (w & _ & Hw').
      left. now apply normalize_word_raises in Hw'.
    + intros [= ->]. right. destruct ws; cbn in Hiter; congruence.
  - intros [= ->]. left.
    destruct (match Dict.get d "text" with Some x => x | None => PStr EmptyString end);
      cbn in Hstrip; congruence.
Qed.

End Acceptance.

(** X10: the normalizer accepts exactly the responses that are objects whose
    [segments], when present, can be iterated over and yield objects whose
    [text], when present, is a string and whose [words], when present, can
    be iterated over and yield objects.  Nothing else about the response
    matters: no field is required and no other type is checked; a [text]
    that is present but null, for one, is not defaulted. *)
Theorem normalize_accepts_iff (audio_name : string) (v : pyval) :
  (exists t, normalize audio_name v = Ok t) <-> accepted_response v = true.
Proof.
  unfold normalize, accepted_response, response_segments.
  destruct (py_get v "language" (PStr "en")) as [language|e] eqn:Hl.
  - assert (py_get v "duration" (PInt 0) =
              Ok (match v with
                  | PDict d => default (PInt 0) (Dict.get d "duration")
                  | _ => PNone
                  end)) as ->
      by (destruct v; try discriminate; reflexivity).
    cbn [mbind result_bind].
    destruct (py_get v "segments" (PList []) ≫= py_iter) as [items|e];
      cbn [mbind result_bind]; [|split; [intros [? [=]] | discriminate]].
    rewrite segments_loop_mapM.
    rewrite <- (mapM_accepts normalize_segment accepted_segment items
                  normalize_segment_accepts).
    destruct (mapM normalize_segment items); cbn [mbind result_bind]; split; eauto;
      intros [? [=]].
  - destruct v; try discriminate; cbn; split; try discriminate; intros [? [=]].
Qed.

(** X11: when the normalizer rejects a response it raises [AttributeError]
    or [TypeError], never [KeyError]: every field is read with [get] or
    behind a membership test. *)
Theorem normalize_raises_only (audio_name : string) (v : pyval) (e : exn) :
  normalize audio_name v = Raise e -> e = AttributeError \/ e = TypeError.
Proof.
  unfold normalize.
  destruct v as [| | | | | |d]; try (cbn; intros [= <-]; now left).
  cbn [py_get mbind result_bind].
  destruct (py_iter _) as [items|e'] eqn:Hiter; cbn [mbind result_bind].
  - rewrite segments_loop_mapM.
    destruct (mapM normalize_segment items) as [segs|e'] eqn:Hs;
      cbn [mbind result_bind]; [discriminate|].
    intros [= ->]. destruct (mapM_raise _ _ _ Hs) as (x & _ & Hx).
    now apply normalize_segment_raises in Hx.
  - intros [= ->]. right.
    destruct (match Dict.get d "segments" with Some x => x | None => PList [] end);
      cbn in Hiter; congruence.
Qed.

Lemma normalize_raises_only_witness :
  AttributeError = AttributeError \/ AttributeError = TypeError.
Proof.
  apply (normalize_raises_only "talk.wav" null_text_response AttributeError).
  reflexivity.
Defined.

Section NormalForm.

Lemma lstrip_id s : head_space s = false -> lstrip s = s.
Proof. destruct s as [|c s]; [reflexivity|]. cbn [head_space lstrip]. now intros ->. Qed.

Lemma rstrip_idem s : rstrip (rstrip s) = rstrip s.
Proof.
  induction s as [|c s IH]; [reflexivity|].
  cbn [rstrip]. destruct (rstrip s) as [|c2 r] eqn:Hr.
  - destruct (is_space c) eqn:Hc; [reflexivity|]. cbn [rstrip]. now rewrite Hc.
  - change (rstrip (String c (String c2 r))) with
      (match rstrip (String c2 r) with
       | EmptyString => if is_space c then EmptyString else String c EmptyString
       | String _ _ as r0 => String c r0
       end).
    now rewrite IH.
Qed.

(** Stripping a stripped string changes nothing. *)
Lemma strip_idem s : strip (strip s) = strip s.
Proof.
  unfold strip. rewrite (lstrip_id (rstrip (lstrip s))) by apply rstrip_head, lstrip_head.
  apply rstrip_idem.
Qed.

Lemma mapM_fixed {A} (f : A -> result A) (l : list A) :
  Forall (fun x => f x = Ok x) l -> mapM f l = Ok l.
Proof.
  induction 1 as [|x l Hx _ IH]; [reflexivity|]. cbn [mapM]. now rewrite Hx, IH.
Qed.

Lemma normalized_word_fixed w w' : normalize_word w = Ok w' -> normalize_word w' = Ok w'.
Proof.
  destruct w; try discriminate. rewrite normalize_word_dict. now intros [= <-].
Qed.

Lemma normalize_segment_plain (a b : pyval) (s : string) :
  normalize_segment (PDict [("start", a); ("end", b); ("text", PStr s)]) =
    Ok (PDict [("start", a); ("end", b); ("text", PStr (strip s))]).
Proof. reflexivity. Qed.

Lemma normalize_segment_with_words (a b : pyval) (s : string) (words : list pyval) :
  normalize_segment
    (PDict [("start", a); ("end", b); ("text", PStr s); ("words", PList words)]) =
    (words' ← mapM normalize_word words;
     Ok (PDict [("start", a); ("end", b); ("text", PStr (strip s));
                ("words", PList words')])).
Proof. reflexivity. Qed.

Lemma normalize_transcript (audio_name name : string) (lang dur : pyval) (segs : list pyval) :
  normalize audio_name
    (PDict [("audio_file", PStr name); ("language", lang);
            ("duration", dur); ("segments", PList segs)]) =
    (segs' ← mapM normalize_segment segs;
     Ok (PDict [("audio_file", PStr audio_name); ("language", lang);
                ("duration", dur); ("segments", PList segs')])).
Proof.
  unfold normalize. cbn [py_get mbind result_bind].
  change (Dict.get _ "segments") with (Some (PList segs)).
  cbn [py_iter mbind result_bind]. rewrite segments_loop_mapM.
  now destruct (mapM normalize_segment segs).
Qed.

Lemma normalized_segment_fixed x y :
  normalize_segment x = Ok y -> normalize_segment y = Ok y.
Proof.
  intros (d & s & -> & _ & H)%normalize_segment_inv.
  destruct (Dict.get d "words") as [ws|].
  - destruct H as (items & words & _ & Hwords & ->).
    assert (mapM normalize_word words = Ok words) as Hfix.
    { apply mapM_fixed. clear -Hwords.
      induction Hwords as [|w w' ? ? Hw _ IH]; constructor; [|exact IH].
      now apply normalized_word_fixed in Hw. }
    unfold segment_base. cbn [app].
    now rewrite normalize_segment_with_words, Hfix, strip_idem.
  - subst y. unfold segment_base. now rewrite normalize_segment_plain, strip_idem.
Qed.

End NormalForm.

(** X12: a transcript the normalizer has built is in normal form: given back
    to the normalizer, under the same audio name, it comes out unchanged.
    Every default is already filled in, every text is already stripped, and
    no key is added or dropped the second time. *)
Theorem normalize_idempotent (audio_name : string) (v t : pyval) :
  normalize audio_name v = Ok t -> normalize audio_name t = Ok t.
Proof.
  intros (d & items & segs & _ & _ & Hloop & ->)%normalize_inv.
  apply segments_loop_Forall2 in Hloop.
  assert (mapM normalize_segment segs = Ok segs) as Hfix.
  { apply mapM_fixed. clear -Hloop.
    induction Hloop as [|x y ? ? Hxy _ IH]; constructor; [|exact IH].
    now apply normalized_segment_fixed in Hxy. }
  now rewrite normalize_transcript, Hfix.
Qed.

Lemma normalize_idempotent_witness :
  normalize "talk.wav" two_segment_transcript = Ok two_segment_transcript.
Proof.
  apply (normalize_idempotent "talk.wav" two_segment_response).
  reflexivity.
Defined.

Section Rendering.

(** The decimal rendering of an integer determines the integer. *)
Lemma str_of_int_inj (a b : Z) : str_of_int a = str_of_int b -> a = b.
Proof.
  assert (forall z, NilZero.int_of_string (str_of_int z) = Some (Z.to_int z)) as Hparse.
  { intros z. apply NilZero.isi; destruct z as [|p|p]; cbn [Z.to_int]; try discriminate;
      intros [= H]; now apply Unsigned.to_uint_nonnil in H. }
  intros H. pose proof (Hparse a) as Ha. rewrite H, Hparse in Ha.
  injection Ha as Ha. rewrite <- (DecimalZ.of_to a), <- (DecimalZ.of_to b). now rewrite Ha.
Qed.

(** Two strings that begin with digits and go on with a letter agree on the
    digits, on the letter and on the rest. *)
Lemma digits_prefix_unique (a b : string) (c c' : ascii) (r r' : string) :
  all_chars is_digit a = true -> all_chars is_digit b = true ->
  is_digit c = false -> is_digit c' = false ->
  a +:+ String c r = b +:+ String c' r' -> a = b /\ c = c' /\ r = r'.
Proof.
  intros Ha Hb Hc Hc'. revert b Hb.
  induction a as [|x a IH]; intros [|y b] Hb; simpl.
  - now intros [= -> ->].
  - intros [= -> _]. cbn [all_chars] in Hb. apply andb_prop in Hb as [Hy _]. congruence.
  - intros [= -> _]. cbn [all_chars] in Ha. apply andb_prop in Ha as [Hx _]. congruence.
  - cbn [all_chars] in Ha, Hb.
    apply andb_prop in Ha as [_ Ha]. apply andb_prop in Hb as [_ Hb].
    intros [= -> H]. destruct (IH Ha b Hb H) as (-> & -> & ->). auto.
Qed.

Lemma digit_inj (x y : Z) : 0 <= x < 10 -> 0 <= y < 10 -> digit x = digit y -> x = y.
Proof.
  intros Hx Hy H. apply (f_equal N_of_ascii) in H. unfold digit in H.
  rewrite !N_ascii_embedding in H by lia. lia.
Qed.

Lemma digit_pair_inj (x y : Z) :
  0 <= x < 100 -> 0 <= y < 100 ->
  digit (x / 10) = digit (y / 10) -> digit (x mod 10) = digit (y mod 10) -> x = y.
Proof.
  intros Hx Hy H1 H2.
  apply digit_inj in H1; [|Z.to_euclidean_division_equations; lia..].
  apply digit_inj in H2; [|Z.to_euclidean_division_equations; lia..].
  Z.to_euclidean_division_equations. lia.
Qed.

(** The rendering of a whole number of seconds, with its three fields. *)
Lemma format_timestamp_fields (t : Z) :
  format_timestamp (PInt t) =
    Ok (if 0 <? t / 3600
        then str_of_int (t / 3600) +:+
             String "h" (two_digits (t mod 3600 / 60) +:+ String "m" (two_digits (t mod 60) +:+ "s"))
        else str_of_int (t mod 3600 / 60) +:+ String "m" (two_digits (t mod 60) +:+ "s")).
Proof.
  rewrite (format_timestamp_unfold (PInt t) t eq_refl), mod_3600_60.
  rewrite !format_02d_two_digits by (Z.to_euclidean_division_equations; lia).
  reflexivity.
Qed.

Lemma format_timestamp_int_inj (a b : Z) :
  0 <= a -> 0 <= b -> format_timestamp (PInt a) = format_timestamp (PInt b) -> a = b.
Proof.
  intros Ha Hb. rewrite !format_timestamp_fields. intros [= H].
  assert (0 <= a / 3600 /\ 0 <= b / 3600) as [Hha Hhb]
    by (split; apply Z.div_pos; lia).
  assert (0 <= a mod 3600 / 60 < 60 /\ 0 <= b mod 3600 / 60 < 60) as [Hma Hmb]
    by (Z.to_euclidean_division_equations; lia).
  assert (0 <= a mod 60 < 60 /\ 0 <= b mod 60 < 60) as [Hsa Hsb]
    by (Z.to_euclidean_division_equations; lia).
  assert (forall x y, 0 <= x < 60 -> 0 <= y < 60 ->
            two_digits x +:+ "s" = two_digits y +:+ "s" -> x = y) as Hsecs.
  { intros x y Hx Hy [= H1 H2]. apply digit_pair_inj; (assumption || lia). }
  destruct (Z.ltb_spec 0 (a / 3600)) as [Hpa|Hza], (Z.ltb_spec 0 (b / 3600)) as [Hpb|Hzb].
  - apply digits_prefix_unique in H as (Hh & _ & Hrest);
      try reflexivity; try (apply str_of_int_digits; lia).
    apply str_of_int_inj in Hh. injection Hrest as Hm1 Hm2 Hs1 Hs2.
    assert (a mod 60 = b mod 60) as Hs by (apply digit_pair_inj; (assumption || lia)).
    assert (a mod 3600 / 60 = b mod 3600 / 60) as Hm by (apply digit_pair_inj; (assumption || lia)).
    Z.to_euclidean_division_equations. lia.
  - apply digits_prefix_unique in H as (_ & [=] & _);
      try reflexivity; apply str_of_int_digits; lia.
  - apply digits_prefix_unique in H as (_ & [=] & _);
      try reflexivity; apply str_of_int_digits; lia.
  - apply digits_prefix_unique in H as (Hm & _ & Hs);
      try reflexivity; try (apply str_of_int_digits; lia).
    apply str_of_int_inj in Hm. apply Hsecs in Hs; [|lia..].
    Z.to_euclidean_division_equations. lia.
Qed.

End Rendering.

(** X13: on non-negative seconds the formatter loses the fraction of a second
    and nothing else: two inputs render the same exactly when they have the
    same whole number of seconds.  Two durations that differ by a second or
    more never share a rendering. *)
Theorem format_timestamp_same_iff (v1 v2 : pyval) (q1 q2 : Q) :
  seconds_of v1 = Some q1 -> seconds_of v2 = Some q2 ->
  (0 <= q1)%Q -> (0 <= q2)%Q ->
  (format_timestamp v1 = format_timestamp v2 <-> Qfloor q1 = Qfloor q2).
Proof.
  intros H1 H2 Hq1 Hq2.
  pose proof (py_int_floor v1 q1 H1 Hq1) as Hi1.
  pose proof (py_int_floor v2 q2 H2 Hq2) as Hi2.
  assert (forall v t, py_int v = Ok t -> format_timestamp v = format_timestamp (PInt t)) as Hint.
  { intros v t Hv. now rewrite (format_timestamp_unfold v t Hv),
                              (format_timestamp_unfold (PInt t) t eq_refl). }
  rewrite (Hint v1 _ Hi1), (Hint v2 _ Hi2). split.
  - apply format_timestamp_int_inj; now apply floor_nonneg.
  - now intros ->.
Qed.

Lemma format_timestamp_same_iff_witness :
  format_timestamp (PFloat one_point_nine) = format_timestamp (PInt 1) <->
  Qfloor (float_value one_point_nine) = Qfloor (inject_Z 1).
Proof.
  apply (format_timestamp_same_iff (PFloat one_point_nine) (PInt 1)).
  - reflexivity.
  - reflexivity.
  - unfold Qle; cbn; lia.
  - unfold Qle; cbn; lia.
Defined.

(** X14: a negative whole number of seconds is rendered without sign and
    without hours, as the minutes and seconds that are left to the next full
    hour: [-1] gives "59m59s".  The rendering is the one of the input taken
    modulo 3600, so it does not tell negative durations apart from durations
    under an hour. *)
Theorem format_timestamp_negative_wraps (z : Z) :
  z < 0 ->
  format_timestamp (PInt z) =
    Ok (str_of_int (z mod 3600 / 60) +:+ "m" +:+ two_digits (z mod 60) +:+ "s") /\
  format_timestamp (PInt z) = format_timestamp (PInt (z mod 3600)) /\
  0 <= z mod 3600 < 3600.
Proof.
  intros Hz.
  assert (0 <= z mod 3600 < 3600) as Hm by (apply Z.mod_pos_bound; lia).
  assert ((0 <? z / 3600) = false) as Hneg
    by (apply Z.ltb_ge; Z.to_euclidean_division_equations; lia).
  assert ((0 <? z mod 3600 / 3600) = false) as Hsmall
    by (apply Z.ltb_ge; rewrite Z.div_small by lia; lia).
  rewrite !format_timestamp_fields, Hneg, Hsmall.
  rewrite Z.mod_mod by lia. rewrite (mod_3600_60 z). repeat split; lia.
Qed.

Lemma format_timestamp_negative_wraps_witness :
  format_timestamp (PInt (-1)) =
    Ok (str_of_int (-1 mod 3600 / 60) +:+ "m" +:+ two_digits (-1 mod 60) +:+ "s") /\
  format_timestamp (PInt (-1)) = format_timestamp (PInt (-1 mod 3600)) /\
  0 <= -1 mod 3600 < 3600.
Proof.
  apply (format_timestamp_negative_wraps (-1)). lia.
Defined.

(** X15: every recording of at most 10 MiB gets the minimum timeout of 120
    seconds, exactly: the rounding of the three floating-point operations
    never pushes the truncated product above 60. *)
Theorem request_timeout_minimum (st_size : Z) :
  0 <= st_size <= 10 * 2 ^ 20 -> request_timeout st_size = Ok 120.
Proof.
  intros Hsize. destruct (Z.eq_dec st_size 0) as [->|Hnz]; [reflexivity|].
  assert (0 < st_size < 2 ^ 48) as Hrange by lia.
  destruct (timeout_product_floor st_size Hrange) as (p & Hp & Hlo & Hhi).
  unfold request_timeout. rewrite Hp. cbn [mbind result_bind]. f_equal.
  assert (6 * st_size / 2 ^ 20 <= 60) by (Z.to_euclidean_division_equations; lia).
  lia.
Qed.

Lemma request_timeout_minimum_witness : request_timeout (10 * 2 ^ 20) = Ok 120.
Proof.
  apply (request_timeout_minimum (10 * 2 ^ 20)). lia.
Defined.

Section TranscoderFailure.

Variable py_repr : pyval -> string.
Variable E : environment.

(** A transcoder that exits with a non-zero status: one progress line, then
    the error that carries its diagnostics. *)
Lemma extract_audio_failure (video_path output_path : path) (w0 : world) :
  returncode (env_ffmpeg E) <> 0 ->
  extract_audio E video_path output_path w0 =
    (Raise (RuntimeError ("FFmpeg failed:" +:+ nl +:+ ffmpeg_stderr (env_ffmpeg E))),
     World (match written (env_ffmpeg E) with
            | Some size => <[output_path := File size]> (fs w0)
            | None => fs w0
            end)
       (stdout w0 ++ ["Extracting audio from " +:+ Path.name video_path +:+ "..."])
       (stderr w0)).
Proof.
  intros Hrc. unfold extract_audio, run_ffmpeg.
  rewrite bind_print, bind_assoc.
  apply Z.eqb_neq in Hrc.
  destruct (written (env_ffmpeg E)) as [size|].
  - rewrite bind_set_fs; cbv beta. rewrite bind_ret, Hrc. reflexivity.
  - rewrite bind_ret; cbv beta. rewrite bind_ret, Hrc. reflexivity.
Qed.

Lemma main_transcoder_failure (args : arguments) (w : world) :
  preconditions_hold E args w ->
  returncode (env_ffmpeg E) <> 0 ->
  main py_repr E args w =
    (Raise (RuntimeError ("FFmpeg failed:" +:+ nl +:+ ffmpeg_stderr (env_ffmpeg E))),
     World (match written (env_ffmpeg E) with
            | Some size =>
                <[audio_path_of E args := File size]>
                  (if arg_keep_audio args then fs w else <[env_mkdtemp E := Dir]> (fs w))
            | None => if arg_keep_audio args then fs w else <[env_mkdtemp E := Dir]> (fs w)
            end)
       (stdout w ++ ["Extracting audio from " +:+ Path.name (arg_video args) +:+ "..."])
       (stderr w)).
Proof.
  intros Hpre Hrc.
  destruct (main_stages py_repr E args w Hpre) as (c & key & _ & ->).
  unfold extract_stage, audio_path_of.
  destruct (arg_keep_audio args); cbv zeta.
  - rewrite bind_assoc. unfold mbind at 1, M_bind.
    rewrite (extract_audio_failure _ _ _ Hrc). reflexivity.
  - rewrite !bind_assoc, bind_set_fs; cbv beta. rewrite bind_assoc.
    unfold mbind at 1, M_bind.
    rewrite (extract_audio_failure _ _ _ Hrc). reflexivity.
Qed.

End TranscoderFailure.

(** X16: with or without [--keep-audio], a transcoder that exits with a
    non-zero status ends the run with [RuntimeError] whose message is
    "FFmpeg failed:", a newline and the transcoder's diagnostics.  Nothing
    after the extraction runs: the only line printed is the one that
    announces the extraction, nothing goes to the standard error, and the
    only changes to the file system are the temporary directory (without
    [--keep-audio]) and whatever the transcoder left at the WAV path. *)
Theorem transcoder_failure_ends_run
    (py_repr : pyval -> string) (E : environment) (args : arguments) (w : world) :
  preconditions_hold E args w ->
  returncode (env_ffmpeg E) <> 0 ->
  exists w',
    main py_repr E args w =
      (Raise (RuntimeError ("FFmpeg failed:" +:+ nl +:+ ffmpeg_stderr (env_ffmpeg E))), w') /\
    stdout w' =
      stdout w ++ ["Extracting audio from " +:+ Path.name (arg_video args) +:+ "..."] /\
    stderr w' = stderr w /\
    fs w' =
      match written (env_ffmpeg E) with
      | Some size =>
          <[audio_path_of E args := File size]>
            (if arg_keep_audio args then fs w else <[env_mkdtemp E := Dir]> (fs w))
      | None => if arg_keep_audio args then fs w else <[env_mkdtemp E := Dir]> (fs w)
      end.
Proof.
  intros Hpre Hrc. eexists. split; [now apply main_transcoder_failure|].
  repeat split.
Qed.

Lemma transcoder_failure_ends_run_witness :
  let args := Arguments video_talk None true in
  exists w',
    main (fun _ => EmptyString) failing_transcode args world_with_video =
      (Raise (RuntimeError ("FFmpeg failed:" +:+ nl +:+
                            ffmpeg_stderr (env_ffmpeg failing_transcode))), w') /\
    stdout w' =
      stdout world_with_video ++
        ["Extracting audio from " +:+ Path.name (arg_video args) +:+ "..."] /\
    stderr w' = stderr world_with_video /\
    fs w' =
      match written (env_ffmpeg failing_transcode) with
      | Some size =>
          <[audio_path_of failing_transcode args := File size]>
            (if arg_keep_audio args then fs world_with_video
             else <[env_mkdtemp failing_transcode := Dir]> (fs world_with_video))
      | None =>
          if arg_keep_audio args then fs world_with_video
          else <[env_mkdtemp failing_transcode := Dir]> (fs world_with_video)
      end.
Proof.
  apply (transcoder_failure_ends_run _ failing_transcode _ world_with_video).
  - split; [vm_compute; eauto|]. split; [|reflexivity]. exists "s"%char, "ecret". reflexivity.
  - discriminate.
Defined.
